(** * Road-vision agent: the file-backed sensor stream reader

    A shallow embedding of [road_vision_agent/src/file_datasource.py]
    (class [FileDatasource]) and the properties of its two channel
    cursors (accelerometer and GPS).

    Conventions of the embedding.
    - A file is represented by the rows [csv.reader] yields for it, each row
      a list of text fields; an empty line is the row [[]].  A field is
      the UTF-8 encoding of its text.
    - The object's mutable fields and the process' open descriptors form an
      explicit state, threaded through a small state-and-exception monad.
    - Python's built-ins [float] and [int] are a parameter of the
      development (the class [Builtins]): every theorem holds for whichever
      strings they accept.
    - [_next_row] calls itself on exhaustion, without a bound of its own;
      what stops it is the interpreter's recursion limit.  Its embedding
      takes the number of nested calls that limit leaves room for, and
      raises [RecursionError] when they are used up.  Where in the nested
      calls the interpreter raises it, and so the state of the object at
      that moment, is not determined by the source: the embedding raises it
      in the innermost [_next_row], before its re-open. *)

From Stdlib Require Import List String Ascii ZArith Bool Arith Lia.
Import ListNotations.
Local Open Scope string_scope.
Local Open Scope list_scope.

(** ** Rows, files and exceptions *)

Definition Row := list string.

(** The files of the host, by path; [None] is a path that cannot be opened. *)
Definition FileSystem := string -> option (list Row).

(** An open text file: the path it was opened on and the rows a
    [csv.reader] over it produces. *)
Record TextFile := mkFile { path : string; content : list Row }.

(** The Python exceptions the class can meet. *)
Inductive exn :=
  OSError | TypeError | IndexError | ValueError | StopIteration | RecursionError.

(** The error kinds of the design, as classes of exceptions. *)
Definition SourceUnavailable (e : exn) : Prop := e = OSError.
Definition MalformedRecord (e : exn) : Prop := e = IndexError \/ e = ValueError.

(** The two channels; [_next_row] is told which one by its [source]
    argument, ["acc"] or ["gps"]. *)
Inductive channel := Acc | Gps.

Definition other (c : channel) : channel :=
  match c with Acc => Gps | Gps => Acc end.

(** The accelerometer item [a] or the GPS item [g], by channel. *)
Definition pick {A} (c : channel) (a g : A) : A :=
  match c with Acc => a | Gps => g end.

(** ** The object state *)

Record Datasource := mkDS {
  acc_filename : string;
  gps_filename : string;
  acc_file : option TextFile;
  gps_file : option TextFile;
  acc_reader : option (list Row);   (* rows the reader has not produced yet *)
  gps_reader : option (list Row);
  descriptors : nat;                (* files the process currently holds open *)
  clock : Z                         (* the wall clock, read by utcnow *)
}.

(** [FileDatasource.__init__] *)
Definition init (accelerometer_filename gps_filename : string) (now : Z)
  : Datasource :=
  mkDS accelerometer_filename gps_filename None None None None 0 now.

Definition reader (c : channel) (s : Datasource) : option (list Row) :=
  match c with Acc => acc_reader s | Gps => gps_reader s end.

Definition set_acc_file (f : option TextFile) (s : Datasource) : Datasource :=
  mkDS (acc_filename s) (gps_filename s) f (gps_file s)
       (acc_reader s) (gps_reader s) (descriptors s) (clock s).

Definition set_gps_file (f : option TextFile) (s : Datasource) : Datasource :=
  mkDS (acc_filename s) (gps_filename s) (acc_file s) f
       (acc_reader s) (gps_reader s) (descriptors s) (clock s).

Definition set_acc_reader (r : option (list Row)) (s : Datasource) : Datasource :=
  mkDS (acc_filename s) (gps_filename s) (acc_file s) (gps_file s)
       r (gps_reader s) (descriptors s) (clock s).

Definition set_gps_reader (r : option (list Row)) (s : Datasource) : Datasource :=
  mkDS (acc_filename s) (gps_filename s) (acc_file s) (gps_file s)
       (acc_reader s) r (descriptors s) (clock s).

Definition set_reader (c : channel) (r : option (list Row)) (s : Datasource)
  : Datasource :=
  match c with Acc => set_acc_reader r s | Gps => set_gps_reader r s end.

Definition set_descriptors (n : nat) (s : Datasource) : Datasource :=
  mkDS (acc_filename s) (gps_filename s) (acc_file s) (gps_file s)
       (acc_reader s) (gps_reader s) n (clock s).

(** ** The monad: state passing and exceptions *)

Inductive outcome (A : Type) :=
| Ret (a : A)
| Raise (e : exn).
Arguments Ret {A} a.
Arguments Raise {A} e.

Definition M (A : Type) := Datasource -> outcome A * Datasource.

Definition ret {A} (a : A) : M A := fun s => (Ret a, s).
Definition raise {A} (e : exn) : M A := fun s => (Raise e, s).

Definition bind {A B} (m : M A) (k : A -> M B) : M B :=
  fun s => match m s with
           | (Ret a, s') => k a s'
           | (Raise e, s') => (Raise e, s')
           end.

(** [try: m  except <handled>: h]; the effects of [m] up to the raise stay. *)
Definition try_except {A} (m : M A) (handled : exn -> bool) (h : M A) : M A :=
  fun s => match m s with
           | (Raise e, s') => if handled e then h s' else (Raise e, s')
           | r => r
           end.

Definition get {A} (f : Datasource -> A) : M A := fun s => (Ret (f s), s).
Definition modify (f : Datasource -> Datasource) : M unit := fun s => (Ret tt, f s).

Declare Scope py_scope.
Delimit Scope py_scope with py.
Notation "x <- m ;; k" := (bind m (fun x => k))
  (at level 61, m at next level, right associativity) : py_scope.
Notation "m ;; k" := (bind m (fun _ => k))
  (at level 61, right associativity) : py_scope.
Local Open Scope py_scope.

Definition is_StopIteration (e : exn) : bool :=
  match e with StopIteration => true | _ => false end.

(** [except Exception] handles every exception of the model. *)
Definition is_Exception (e : exn) : bool := true.

(** ** Text predicates *)

(** The code points [str.strip] removes, those [str.isspace] accepts:
    U+0009 to U+000D, U+001C to U+0020, U+0085, U+00A0, U+1680, U+2000 to
    U+200A, U+2028, U+2029, U+202F, U+205F and U+3000. *)
Definition isspace (cp : N) : bool :=
  (N.leb 9 cp && N.leb cp 13) || (N.leb 28 cp && N.leb cp 32) ||
  N.eqb cp 133 || N.eqb cp 160 || N.eqb cp 5760 ||
  (N.leb 8192 cp && N.leb cp 8202) ||
  N.eqb cp 8232 || N.eqb cp 8233 || N.eqb cp 8239 || N.eqb cp 8287 ||
  N.eqb cp 12288.

(** A whitespace character of one byte (ASCII). *)
Definition is_space (a : ascii) : bool :=
  let n := N_of_ascii a in
  N.ltb n 128 && isspace n.

(** The payload of a continuation byte of UTF-8. *)
Definition continuation (b : ascii) : option N :=
  let n := N_of_ascii b in
  if N.leb 128 n && N.leb n 191 then Some (n - 128)%N else None.

(** The code point that two bytes encode, when they encode one. *)
Definition decode2 (a b : ascii) : option N :=
  let n := N_of_ascii a in
  if N.leb 194 n && N.leb n 223 then
    option_map (fun v => ((n - 192) * 64 + v)%N) (continuation b)
  else None.

(** The code point that three bytes encode, when they encode one. *)
Definition decode3 (a b d : ascii) : option N :=
  let n := N_of_ascii a in
  if N.leb 224 n && N.leb n 239 then
    match continuation b, continuation d with
    | Some v, Some w =>
        let cp := ((n - 224) * 4096 + v * 64 + w)%N in
        if N.leb 2048 cp then Some cp else None
    | _, _ => None
    end
  else None.

(** The text holds nothing but whitespace: every character read off the
    bytes, of one, two or three bytes, is one [str.strip] removes (no
    character of four bytes is). *)
Fixpoint all_space (c : string) : bool :=
  match c with
  | EmptyString => true
  | String a c1 =>
      if is_space a then all_space c1
      else
        match c1 with
        | EmptyString => false
        | String b c2 =>
            match decode2 a b with
            | Some cp => isspace cp && all_space c2
            | None =>
                match c2 with
                | EmptyString => false
                | String d c3 =>
                    match decode3 a b d with
                    | Some cp => isspace cp && all_space c3
                    | None => false
                    end
                end
            end
        end
  end.

(** [not c.strip()] *)
Definition not_strip (c : string) : bool := all_space c.

(** [len(row) == 0 or all(not c.strip() for c in row)] *)
Definition is_blank (row : Row) : bool :=
  Nat.eqb (List.length row) 0 || forallb not_strip row.

(** [row[i]] *)
Definition index (row : Row) (i : nat) : M string :=
  match nth_error row i with
  | Some c => ret c
  | None => raise IndexError
  end.

(** ** Files and readers *)

(** [next(csv_reader)] on the reader of channel [c]. *)
Definition next (c : channel) : M Row :=
  fun s => match reader c s with
           | None => (Raise TypeError, s)
           | Some [] => (Raise StopIteration, s)
           | Some (r :: t) => (Ret r, set_reader c (Some t) s)
           end.

(** [open(name, "r", ...)] *)
Definition open (fs : FileSystem) (name : string) : M TextFile :=
  fun s => match fs name with
           | None => (Raise OSError, s)
           | Some rows => (Ret (mkFile name rows), set_descriptors (S (descriptors s)) s)
           end.

(** [if f: f.close()] *)
Definition close_if (f : option TextFile) : M unit :=
  match f with
  | Some _ => modify (fun s => set_descriptors (pred (descriptors s)) s)
  | None => ret tt
  end.

(** [FileDatasource._close_files] *)
Definition close_files : M unit :=
  f <- get acc_file ;; close_if f ;;
  g <- get gps_file ;; close_if g ;;
  modify (set_acc_file None) ;;
  modify (set_gps_file None) ;;
  modify (set_acc_reader None) ;;
  modify (set_gps_reader None).

(** ** Decimal literals

    A reading of plain decimal literals (an optional minus sign, digits, at
    most one point), on which the embedding is run in the examples.  It
    accepts part of what Python's [int] and [float] accept; the general
    results below do not depend on it. *)

Definition digit (a : ascii) : option Z :=
  let n := nat_of_ascii a in
  if Nat.leb 48 n && Nat.leb n 57 then Some (Z.of_nat (n - 48)) else None.

Fixpoint digits (c : string) (acc : Z) : option Z :=
  match c with
  | EmptyString => Some acc
  | String a c' =>
      match digit a with
      | Some d => digits c' (10 * acc + d)%Z
      | None => None
      end
  end.

Definition unsigned (c : string) : option Z :=
  match c with
  | EmptyString => None
  | _ => digits c 0%Z
  end.

Definition signed (c : string) : bool * string :=
  match c with
  | String "-" c' => (true, c')
  | _ => (false, c)
  end.

Definition with_sign (neg : bool) (v : Z) : Z := if neg then Z.opp v else v.

Definition dec_int (c : string) : option Z :=
  let (neg, body) := signed c in
  option_map (with_sign neg) (unsigned body).

Fixpoint split_point (c : string) : string * option string :=
  match c with
  | EmptyString => (EmptyString, None)
  | String a c' =>
      if Ascii.eqb a "." then (EmptyString, Some c')
      else let (i, f) := split_point c' in (String a i, f)
  end.

(** A decimal: the digits as an integer and the number of digits after the
    point, so ["10.5"] reads as [(105, 1)]. *)
Definition Decimal := (Z * nat)%type.

Definition dec_float (c : string) : option Decimal :=
  let (neg, body) := signed c in
  let (i, f) := split_point body in
  match f with
  | None => option_map (fun v => (with_sign neg v, 0)) (unsigned i)
  | Some fr =>
      option_map (fun v => (with_sign neg v, String.length fr)) (unsigned (i ++ fr))
  end.

(** ** Example hosts *)

(** A host with the two files ["acc.csv"] and ["gps.csv"]. *)
Definition host (a g : option (list Row)) : FileSystem :=
  fun name =>
    if String.eqb name "acc.csv" then a
    else if String.eqb name "gps.csv" then g
    else None.

Definition fresh : Datasource := init "acc.csv" "gps.csv" 0.

Definition acc_header : Row := ["x"; "y"; "z"].
Definition gps_header : Row := ["longitude"; "latitude"].

(** A numeric first row, no header. *)
Definition acc_numeric_first : list Row := [["1"; "2"; "3"]; ["4"; "5"; "6"]].

(** A first row of the wrong width. *)
Definition acc_short_first : list Row := [["1"; "2"]; ["4"; "5"; "6"]].

Definition gps_three : list Row :=
  [gps_header; ["10.5"; "20.25"]; ["11.5"; "21.25"]; ["12.5"; "22.25"]].

Definition gps_two : list Row :=
  [gps_header; ["10.5"; "20.25"]; ["11.5"; "21.25"]].

Definition gps_one : list Row := [gps_header; ["10.5"; "20.25"]].

(** One accelerometer sample: the channel wraps at every second fetch. *)
Definition acc_one : list Row := [acc_header; ["1"; "2"; "3"]].

(** Three accelerometer samples: no wrap within three fetches. *)
Definition acc_three : list Row :=
  [acc_header; ["1"; "2"; "3"]; ["4"; "5"; "6"]; ["7"; "8"; "9"]].

(** A malformed sample (two fields) followed by two good ones. *)
Definition acc_bad_then_good : list Row :=
  [acc_header; ["1"; "2"]; ["4"; "5"; "6"]; ["7"; "8"; "9"]].

(** A no-break space (U+00A0), as UTF-8. *)
Definition nbsp : string :=
  String (ascii_of_nat 194) (String (ascii_of_nat 160) EmptyString).

(** An em space (U+2003) and an ideographic space (U+3000), as UTF-8. *)
Definition em_space : string :=
  String (ascii_of_nat 226) (String (ascii_of_nat 128)
    (String (ascii_of_nat 131) EmptyString)).
Definition ideographic_space : string :=
  String (ascii_of_nat 227) (String (ascii_of_nat 128)
    (String (ascii_of_nat 128) EmptyString)).

(** Samples with rows of Unicode whitespace between them. *)
Definition acc_unicode_spaced : list Row :=
  [acc_header; [nbsp; nbsp; nbsp]; ["1"; "2"; "3"];
   [em_space; " "; ideographic_space]; ["4"; "5"; "6"]].

(** Nothing but blank rows. *)
Definition acc_only_blank : list Row := [[""]; [" "; "  "]; []].

(** Blank rows between the samples of [acc_three]. *)
Definition acc_three_spaced : list Row :=
  [acc_header; ["1"; "2"; "3"]; []; [" "]; ["4"; "5"; "6"]; [""; ""; ""];
   ["7"; "8"; "9"]].

(** ** The built-ins

    Python's [float] and [int] on a string: the value, or [None] where the
    built-in raises [ValueError]. *)
Class Builtins := {
  F : Type;
  py_float : string -> option F;
  py_int : string -> option Z
}.

(** The decimal literals as built-ins, for the examples. *)
Definition decimal : Builtins :=
  {| F := Decimal; py_float := dec_float; py_int := dec_int |}.

Section Reader.

Context {B : Builtins}.

Definition float (c : string) : M F :=
  match py_float c with Some v => ret v | None => raise ValueError end.

Definition int (c : string) : M Z :=
  match py_int c with Some v => ret v | None => raise ValueError end.

(** [FileDatasource._skip_header_if_present] *)
Definition skip_header_if_present (c : channel) (expected_cols : nat) : M unit :=
  peeked <- try_except (r <- next c ;; ret (Some r)) is_StopIteration (ret None) ;;
  match peeked with
  | None => ret tt
  | Some peek =>
      if negb (Nat.eqb (List.length peek) expected_cols) then ret tt
      else try_except
             (c0 <- index peek 0 ;; _ <- float c0 ;; raise ValueError)
             is_Exception
             (ret tt)
  end.

(** [FileDatasource._open_files] *)
Definition open_files (fs : FileSystem) : M unit :=
  close_files ;;
  an <- get acc_filename ;;
  f <- open fs an ;; modify (set_acc_file (Some f)) ;;
  gn <- get gps_filename ;;
  g <- open fs gn ;; modify (set_gps_file (Some g)) ;;
  modify (set_acc_reader (Some (content f))) ;;
  modify (set_gps_reader (Some (content g))) ;;
  skip_header_if_present Acc 3 ;;
  skip_header_if_present Gps 2.

(** The [while] loop of [_next_row], by recursion on the rows the reader
    still holds: [row] is the row in hand, [rest] what the reader has left. *)
Fixpoint skip_blank (row : Row) (rest : list Row) : outcome Row * list Row :=
  if is_blank row then
    match rest with
    | [] => (Raise StopIteration, [])
    | r :: t => skip_blank r t
    end
  else (Ret row, rest).

Definition while_blank (c : channel) (row : Row) : M Row :=
  fun s => match reader c s with
           | None => if is_blank row then (Raise TypeError, s) else (Ret row, s)
           | Some rest =>
               let (o, rest') := skip_blank row rest in
               (o, set_reader c (Some rest') s)
           end.

(** [FileDatasource._next_row]; [depth] is the number of nested calls the
    interpreter's recursion limit leaves room for. *)
Fixpoint next_row (fs : FileSystem) (depth : nat) (c : channel) : M Row :=
  try_except
    (row <- next c ;; while_blank c row)
    is_StopIteration
    (match depth with
     | O => raise RecursionError
     | S d => open_files fs ;; next_row fs d c
     end).

(** Modelled from the spec: the classes [Accelerometer], [Gps] and
    [AggregatedData] of the package [domain], which is not part of the
    sources at hand; the fields are those of section 3 of the design and
    of the marshmallow schemas. *)
Record Accelerometer := mkAccelerometer { x : Z; y : Z; z : Z }.
Record GpsFix := mkGps { longitude : F; latitude : F }.
Record AggregatedData := mkAggregated {
  accelerometer : Accelerometer;
  gps : GpsFix;
  time : Z
}.

Definition is_None {A} (o : option A) : bool :=
  match o with None => true | Some _ => false end.

(** The lazy start at the top of [read]. *)
Definition ensure_open (fs : FileSystem) : M unit :=
  a <- get acc_reader ;;
  g <- get gps_reader ;;
  if is_None a || is_None g then open_files fs else ret tt.

(** The field conversions of [read], in Python's evaluation order. *)
Definition parse_acc (acc_row : Row) : M Accelerometer :=
  a0 <- index acc_row 0 ;; vx <- int a0 ;;
  a1 <- index acc_row 1 ;; vy <- int a1 ;;
  a2 <- index acc_row 2 ;; vz <- int a2 ;;
  ret (mkAccelerometer vx vy vz).

Definition parse_gps (gps_row : Row) : M GpsFix :=
  g0 <- index gps_row 0 ;; lon <- float g0 ;;
  g1 <- index gps_row 1 ;; lat <- float g1 ;;
  ret (mkGps lon lat).

(** [FileDatasource.read] *)
Definition read (fs : FileSystem) (depth : nat) : M AggregatedData :=
  ensure_open fs ;;
  acc_row <- next_row fs depth Acc ;;
  gps_row <- next_row fs depth Gps ;;
  a <- parse_acc acc_row ;;
  g <- parse_gps gps_row ;;
  now <- get clock ;;
  ret (mkAggregated a g now).

(** [FileDatasource.startReading] and [FileDatasource.stopReading] *)
Definition startReading (fs : FileSystem) : M unit := open_files fs.
Definition stopReading : M unit := close_files.

(** ** Closed forms of the straight-line methods *)

Definition release (f : option TextFile) (n : nat) : nat :=
  match f with Some _ => pred n | None => n end.

(** The state [_close_files] leaves. *)
Definition closed (s : Datasource) : Datasource :=
  mkDS (acc_filename s) (gps_filename s) None None None None
       (release (gps_file s) (release (acc_file s) (descriptors s))) (clock s).

(** The state a successful [_open_files] leaves, on sources [a] and [g]. *)
Definition opened (s : Datasource) (a g : list Row) : Datasource :=
  mkDS (acc_filename s) (gps_filename s)
       (Some (mkFile (acc_filename s) a)) (Some (mkFile (gps_filename s) g))
       (Some (tl a)) (Some (tl g))
       (S (S (descriptors (closed s)))) (clock s).

(** The state [_open_files] leaves when only the GPS file cannot be opened. *)
Definition half_opened (s : Datasource) (a : list Row) : Datasource :=
  mkDS (acc_filename s) (gps_filename s)
       (Some (mkFile (acc_filename s) a)) None None None
       (S (descriptors (closed s))) (clock s).

(** The first row of [rows] that is not blank, with the rows after it. *)
Fixpoint first_data (rows : list Row) : option (Row * list Row) :=
  match rows with
  | [] => None
  | r :: t => if is_blank r then first_data t else Some (r, t)
  end.

Definition nonblank (r : Row) : bool := negb (is_blank r).

(** ** Running the cursor *)

(** Successive [_next_row] calls on the channels [cs], one after the other,
    whatever each call answers. *)
Fixpoint run_fetches (fs : FileSystem) (depth : nat) (cs : list channel)
    (s : Datasource) : list (outcome Row) :=
  match cs with
  | [] => []
  | c :: cs' =>
      let (o, s') := next_row fs depth c s in
      o :: run_fetches fs depth cs' s'
  end.

(** [n] successive [read] calls. *)
Fixpoint run_reads (fs : FileSystem) (depth : nat) (n : nat)
    (s : Datasource) : list (outcome AggregatedData) :=
  match n with
  | O => []
  | S n' =>
      let (o, s') := read fs depth s in
      o :: run_reads fs depth n' s'
  end.

(** The state after [n] successive [read] calls. *)
Fixpoint after_reads (fs : FileSystem) (depth : nat) (n : nat)
    (s : Datasource) : Datasource :=
  match n with
  | O => s
  | S n' => after_reads fs depth n' (snd (read fs depth s))
  end.

Definition gps_of (o : outcome AggregatedData) : option GpsFix :=
  match o with Ret d => Some (gps d) | _ => None end.

(** ** The vocabulary of the design *)

(** The column count each channel expects. *)
Definition expected_cols (c : channel) : nat :=
  match c with Acc => 3 | Gps => 2 end.

(** A header row, in the words of the design: the expected width, and a
    first field that is not a number. *)
Definition is_header (cols : nat) (r : Row) : bool :=
  Nat.eqb (List.length r) cols &&
  match r with
  | c0 :: _ => is_None (py_float c0)
  | [] => false
  end.

(** The rows a cursor is meant to deliver, in the words of the design: the
    rows of the source that are not blank, without the header row when the
    source starts with one. *)
Definition data_rows (cols : nat) (src : list Row) : list Row :=
  match src with
  | r :: t => if is_header cols r then filter nonblank t else filter nonblank src
  | [] => []
  end.

(** The first [n] rows of [data] repeated for ever. *)
Definition cyclic (data : list Row) (n : nat) : list Row :=
  map (fun k => nth (k mod List.length data) data []) (seq 0 n).

(** No row is mistaken for a header: the row that opening consumes is a
    header, or a blank row that would be skipped anyway. *)
Definition no_row_mistaken (cols : nat) (src : list Row) : Prop :=
  match src with
  | r :: _ => is_header cols r = true \/ is_blank r = true
  | [] => True
  end.

(** [blank_ins l l']: [l'] is [l] with blank rows inserted, any number,
    anywhere. *)
Inductive blank_ins : list Row -> list Row -> Prop :=
| blank_ins_nil : blank_ins [] []
| blank_ins_keep r l l' : blank_ins l l' -> blank_ins (r :: l) (r :: l')
| blank_ins_blank b l l' :
    is_blank b = true -> blank_ins l l' -> blank_ins l (b :: l').

(** Blank rows inserted between the rows of a source: the first row of the
    file stays the first row. *)
Definition spaced_out (src src' : list Row) : Prop :=
  match src, src' with
  | [], [] => True
  | r :: t, r' :: t' => r = r' /\ blank_ins t t'
  | _, _ => False
  end.



(** The files the object holds, and the agreement of the process'
    descriptor count with them. *)
Definition held (s : Datasource) : nat :=
  (if is_None (acc_file s) then 0 else 1) + (if is_None (gps_file s) then 0 else 1).

Definition consistent (s : Datasource) : Prop := descriptors s = held s.

(** Two states that differ only in blank rows still to be read. *)
Definition same_data (o o' : option (list Row)) : Prop :=
  match o, o' with
  | Some l, Some l' => filter nonblank l = filter nonblank l'
  | _, _ => False
  end.

Definition sim (s s' : Datasource) : Prop :=
  acc_filename s = acc_filename s' /\
  gps_filename s = gps_filename s' /\
  same_data (acc_reader s) (acc_reader s') /\
  same_data (gps_reader s) (gps_reader s').

(** ** Fetches on the two channels, interleaved *)

Definition channel_eqb (c c' : channel) : bool :=
  match c, c' with
  | Acc, Acc | Gps, Gps => true
  | _, _ => false
  end.

(** The reader still holds a row that is not blank. *)
Definition has_data (o : option (list Row)) : bool :=
  match o with
  | Some rows => negb (is_None (first_data rows))
  | None => false
  end.

(** In the fetches [cs] from the state [s], no fetch on the channel other
    than [c] finds its reader without data: none of them restarts the
    sources. *)
Fixpoint undisturbed (fs : FileSystem) (depth : nat) (c : channel)
    (cs : list channel) (s : Datasource) : bool :=
  match cs with
  | [] => true
  | c' :: cs' =>
      (channel_eqb c' c || has_data (reader c' s)) &&
      undisturbed fs depth c cs' (snd (next_row fs depth c' s))
  end.

(** Of the answers [outs] to the fetches [cs], those of the fetches on [c]. *)
Fixpoint results_on (c : channel) (cs : list channel) (outs : list (outcome Row))
  : list (outcome Row) :=
  match cs, outs with
  | c' :: cs', o :: outs' =>
      if channel_eqb c' c then o :: results_on c cs' outs'
      else results_on c cs' outs'
  | _, _ => []
  end.

(** The number of fetches on [c] among [cs]. *)
Fixpoint count_on (c : channel) (cs : list channel) : nat :=
  match cs with
  | [] => 0
  | c' :: cs' => if channel_eqb c' c then S (count_on c cs') else count_on c cs'
  end.

(** The fetches that [n] calls of [read] make. *)
Fixpoint read_pattern (n : nat) : list channel :=
  match n with
  | O => []
  | S n' => Acc :: Gps :: read_pattern n'
  end.

(** ** Where a fetch leaves its cursor *)





(** ** Reads at given moments *)

Definition set_clock (t : Z) (s : Datasource) : Datasource :=
  mkDS (acc_filename s) (gps_filename s) (acc_file s) (gps_file s)
       (acc_reader s) (gps_reader s) (descriptors s) t.

(** Successive calls of [read], the wall clock showing the moments [times]
    one after the other. *)
Fixpoint run_reads_at (fs : FileSystem) (depth : nat) (times : list Z)
    (s : Datasource) : list (outcome AggregatedData) :=
  match times with
  | [] => []
  | t :: ts =>
      let (o, s') := read fs depth (set_clock t s) in
      o :: run_reads_at fs depth ts s'
  end.

(** ** Sequences of calls *)

(** The public methods, as a caller invokes them. *)
Inductive call := CallStart | CallStop | CallRead.

(** One call, on the host as it is at that moment; the object is left as
    the call leaves it, whether the call returns or raises.  For a [read]
    that the recursion limit stops this is the state of the embedding (the
    error raised in the innermost [_next_row], before its re-open); where
    the interpreter raises it is not determined by the source, and
    [within_limit] tells the sequences in which no call is stopped so. *)
Definition do_call (depth : nat) (k : FileSystem * call) (s : Datasource)
  : Datasource :=
  match snd k with
  | CallStart => snd (startReading (fst k) s)
  | CallStop => snd (stopReading s)
  | CallRead => snd (read (fst k) depth s)
  end.

Definition after_calls (depth : nat) (ks : list (FileSystem * call))
    (s : Datasource) : Datasource :=
  fold_left (fun s' k => do_call depth k s') ks s.

(** [m] keeps the property [P] of the object, whatever it answers. *)
Definition preserves {A} (P : Datasource -> Prop) (m : M A) : Prop :=
  forall s, P s -> P (snd (m s)).

(** What no method changes, and the agreement of the descriptor count. *)
Definition stable (s0 s : Datasource) : Prop :=
  consistent s /\
  acc_filename s = acc_filename s0 /\
  gps_filename s = gps_filename s0 /\
  clock s = clock s0.

(** The end of [read], once the two rows are fetched. *)
Definition paired (acc_row gps_row : Row) : M AggregatedData :=
  a <- parse_acc acc_row ;;
  g <- parse_gps gps_row ;;
  now <- get clock ;;
  ret (mkAggregated a g now).

(** Reads in step: read number [i+1], made at the moment [t], pairs row
    [i mod n] of the accelerometer data [da] with row [i mod n] of the GPS
    data [dg] and stamps the reading with [t]. *)
Fixpoint lockstep (da dg : list Row) (n i : nat) (times : list Z)
    (s : Datasource) : list (outcome AggregatedData) :=
  match times with
  | [] => []
  | t :: ts =>
      fst (paired (nth (i mod n) da []) (nth (i mod n) dg []) (set_clock t s))
      :: lockstep da dg n (S i) ts s
  end.

(** The call is stopped by the interpreter's recursion limit. *)
Definition hits_limit {A} (o : outcome A) : bool :=
  match o with
  | Raise RecursionError => true
  | _ => false
  end.

(** No call of the sequence is stopped by the recursion limit. *)
Fixpoint within_limit (depth : nat) (ks : list (FileSystem * call))
    (s : Datasource) : bool :=
  match ks with
  | [] => true
  | k :: ks' =>
      negb (match snd k with
            | CallRead => hits_limit (fst (read (fst k) depth s))
            | _ => false
            end) &&
      within_limit depth ks' (do_call depth k s)
  end.

(** A call that comes back with a value or with [MalformedRecord]. *)
Definition returns_or_malformed {A} (o : outcome A) : Prop :=
  match o with
  | Ret _ => True
  | Raise e => MalformedRecord e
  end.

(** ** road_vision_store/config.py *)

(** [os.environ]: the value of a variable, or [None] when it is not set. *)
Definition Environ := string -> option string.

(** A call that answers a value or raises. *)
Inductive result (A : Type) := Ok (a : A) | Err (e : exn).
Arguments Ok {A} a.
Arguments Err {A} e.

(** The built-in [int] as a callable. *)
Definition int_call (value : string) : result Z :=
  match py_int value with Some v => Ok v | None => Err ValueError end.

(** [config.try_parse] *)
Definition try_parse {A} (type_ : string -> result A) (value : string)
  : option A :=
  match type_ value with
  | Ok v => Some v
  | Err _ => None
  end.

(** [os.environ.get(name) or default]: an empty string is as good as none. *)
Definition get_or (env : Environ) (name default : string) : string :=
  match env name with
  | Some v => if String.eqb v "" then default else v
  | None => default
  end.

Definition POSTGRES_HOST (env : Environ) : string :=
  get_or env "POSTGRES_HOST" "localhost".

(** [try_parse(int, os.environ.get("POSTGRES_PORT") or "") or 5432]: [None]
    and [0] both give way to the default. *)
Definition POSTGRES_PORT (env : Environ) : Z :=
  match try_parse int_call (get_or env "POSTGRES_PORT" "") with
  | Some n => if Z.eqb n 0 then 5432%Z else n
  | None => 5432%Z
  end.

Definition POSTGRES_USER (env : Environ) : string :=
  get_or env "POSTGRES_USER" "user".

Definition POSTGRES_PASSWORD (env : Environ) : string :=
  get_or env "POSTGRES_PASSWORD" "pass".

Definition POSTGRES_DB (env : Environ) : string :=
  get_or env "POSTGRES_DB" "test_db".

(** [config.DATABASE_URL]; [str] is the formatting of an integer in an
    f-string. *)
Definition DATABASE_URL (str : Z -> string) (env : Environ) : string :=
  "postgresql+psycopg2://" ++ POSTGRES_USER env ++ ":" ++ POSTGRES_PASSWORD env
  ++ "@" ++ POSTGRES_HOST env ++ ":" ++ str (POSTGRES_PORT env)
  ++ "/" ++ POSTGRES_DB env.

(** The environment with every variable set to the empty string unset. *)
Definition unset_empty (env : Environ) : Environ :=
  fun name =>
    match env name with
    | Some v => if String.eqb v "" then None else Some v
    | None => None
    end.

End Reader.

(** ** Example runs, on the decimal built-ins *)

(** The object after [startReading] on the host [fs]. *)
Definition started (fs : FileSystem) : Datasource :=
  snd (startReading (B := decimal) fs fresh).

(** The object after [n] calls of [read] on the host [fs]. *)
Definition state_after (fs : FileSystem) (n : nat) : Datasource :=
  after_reads (B := decimal) fs 1 n fresh.

(** What [n] calls of [read] answer on the host [fs]. *)
Definition read_outcomes (fs : FileSystem) (n : nat)
  : list (outcome (AggregatedData (B := decimal))) :=
  run_reads (B := decimal) fs 1 n fresh.

Definition reading (vx vy vz : Z) (lon lat : Decimal)
  : AggregatedData (B := decimal) :=
  mkAggregated (mkAccelerometer vx vy vz) (mkGps (B := decimal) lon lat) 0.

(** An environment that sets [POSTGRES_PORT] (or not) and nothing else. *)
Definition env_port (port : option string) : Environ :=
  fun name => if String.eqb name "POSTGRES_PORT" then port else None.

Section Properties.

Context {B : Builtins}.

(** ** Basic facts *)

Lemma set_reader_same c r s : reader c (set_reader c r s) = r.
Proof. destruct c; reflexivity. Qed.

Lemma set_reader_other c r s : reader (other c) (set_reader c r s) = reader (other c) s.
Proof. destruct c; reflexivity. Qed.

Lemma set_reader_twice c r1 r2 s :
  set_reader c r2 (set_reader c r1 s) = set_reader c r2 s.
Proof. destruct c; reflexivity. Qed.

Lemma set_reader_id c s : set_reader c (reader c s) s = s.
Proof. destruct c, s; reflexivity. Qed.

Lemma close_files_eq s : close_files s = (Ret tt, closed s).
Proof.
  destruct s as [an gn [f|] [g|] ra rg d t]; reflexivity.
Qed.

Lemma skip_header_eq c n s rows :
  reader c s = Some rows ->
  skip_header_if_present c n s = (Ret tt, set_reader c (Some (tl rows)) s).
Proof.
  intros Hr. unfold skip_header_if_present, bind, try_except, next.
  rewrite Hr. destruct rows as [|peek t]; cbn.
  - rewrite <- Hr, set_reader_id. reflexivity.
  - destruct (Nat.eqb (List.length peek) n); cbn; [|reflexivity].
    unfold index. destruct (nth_error peek 0) as [c0|]; cbn; [|reflexivity].
    unfold float. destruct (py_float c0); reflexivity.
Qed.

Lemma open_files_ok fs s a g :
  fs (acc_filename s) = Some a ->
  fs (gps_filename s) = Some g ->
  open_files fs s = (Ret tt, opened s a g).
Proof.
  intros Ha Hg. unfold open_files.
  unfold bind at 1. rewrite close_files_eq.
  unfold bind at 1. cbn [get closed acc_filename].
  unfold bind at 1. unfold open at 1. cbn [acc_filename closed]. rewrite Ha.
  unfold bind at 1. cbn [modify].
  unfold bind at 1. cbn [get].
  unfold bind at 1. unfold open at 1. cbn. rewrite Hg.
  cbn.
  unfold bind at 1.
  erewrite skip_header_eq by reflexivity.
  erewrite skip_header_eq by reflexivity.
  reflexivity.
Qed.

Lemma open_files_acc_missing fs s :
  fs (acc_filename s) = None ->
  open_files fs s = (Raise OSError, closed s).
Proof.
  intros Ha. unfold open_files.
  unfold bind at 1. rewrite close_files_eq.
  unfold bind at 1. cbn [get closed acc_filename].
  unfold bind at 1. unfold open at 1. cbn [acc_filename closed]. rewrite Ha.
  reflexivity.
Qed.

Lemma open_files_gps_missing fs s a :
  fs (acc_filename s) = Some a ->
  fs (gps_filename s) = None ->
  open_files fs s = (Raise OSError, half_opened s a).
Proof.
  intros Ha Hg. unfold open_files.
  unfold bind at 1. rewrite close_files_eq.
  unfold bind at 1. cbn [get closed acc_filename].
  unfold bind at 1. unfold open at 1. cbn [acc_filename closed]. rewrite Ha.
  unfold bind at 1. cbn [modify].
  unfold bind at 1. cbn [get].
  unfold bind at 1. unfold open at 1. cbn. rewrite Hg.
  reflexivity.
Qed.

(** ** The cursor, one fetch at a time *)

Lemma skip_blank_first_data row rest :
  skip_blank row rest =
  match first_data (row :: rest) with
  | Some (r, t) => (Ret r, t)
  | None => (Raise StopIteration, [])
  end.
Proof.
  revert row. induction rest as [|r' t IH]; intros row; cbn.
  - destruct (is_blank row); reflexivity.
  - destruct (is_blank row); [|reflexivity]. rewrite IH. reflexivity.
Qed.

(** The [try] block of [_next_row]. *)
Lemma try_block_eq c s rows :
  reader c s = Some rows ->
  (row <- next c ;; while_blank c row) s =
  match first_data rows with
  | Some (r, t) => (Ret r, set_reader c (Some t) s)
  | None => (Raise StopIteration, set_reader c (Some []) s)
  end.
Proof.
  intros Hr. unfold bind, next. rewrite Hr.
  destruct rows as [|row rest].
  - cbn. rewrite <- Hr, set_reader_id. reflexivity.
  - unfold while_blank. rewrite set_reader_same.
    rewrite skip_blank_first_data.
    destruct (first_data (row :: rest)) as [[r t]|];
      rewrite set_reader_twice; reflexivity.
Qed.

Lemma next_row_found fs depth c s rows r t :
  reader c s = Some rows ->
  first_data rows = Some (r, t) ->
  next_row fs depth c s = (Ret r, set_reader c (Some t) s).
Proof.
  intros Hr Hf.
  destruct depth; cbn [next_row]; unfold try_except;
    rewrite (try_block_eq c s rows Hr), Hf; reflexivity.
Qed.

Lemma next_row_exhausted fs depth c s rows :
  reader c s = Some rows ->
  first_data rows = None ->
  next_row fs (S depth) c s =
  (open_files fs ;; next_row fs depth c) (set_reader c (Some []) s).
Proof.
  intros Hr Hf. cbn [next_row]. unfold try_except.
  rewrite (try_block_eq c s rows Hr), Hf. reflexivity.
Qed.

Lemma next_row_too_deep fs c s rows :
  reader c s = Some rows ->
  first_data rows = None ->
  next_row fs 0 c s = (Raise RecursionError, set_reader c (Some []) s).
Proof.
  intros Hr Hf. cbn [next_row]. unfold try_except.
  rewrite (try_block_eq c s rows Hr), Hf. reflexivity.
Qed.

Lemma next_row_unopened fs depth c s :
  reader c s = None ->
  next_row fs depth c s = (Raise TypeError, s).
Proof.
  intros Hr.
  destruct depth; cbn [next_row]; unfold try_except, bind, next;
    rewrite Hr; reflexivity.
Qed.

Lemma first_data_filter rows :
  match first_data rows with
  | Some (r, t) => filter nonblank rows = r :: filter nonblank t /\ is_blank r = false
  | None => filter nonblank rows = []
  end.
Proof.
  induction rows as [|r t IH]; cbn [first_data filter]; [reflexivity|].
  replace (nonblank r) with (negb (is_blank r)) by reflexivity.
  destruct (is_blank r) eqn:Hb; cbn [negb].
  - exact IH.
  - split; [reflexivity | exact Hb].
Qed.

Lemma first_data_none rows :
  filter nonblank rows = [] -> first_data rows = None.
Proof.
  intros H. pose proof (first_data_filter rows) as P.
  destruct (first_data rows) as [[r t]|]; [|reflexivity].
  destruct P as [P _]. congruence.
Qed.

Lemma first_data_some rows r l :
  filter nonblank rows = r :: l ->
  exists t, first_data rows = Some (r, t) /\ filter nonblank t = l.
Proof.
  intros H. pose proof (first_data_filter rows) as P.
  destruct (first_data rows) as [[r' t]|].
  - destruct P as [P _]. rewrite P in H. injection H as -> <-.
    exists t. split; reflexivity.
  - congruence.
Qed.

Lemma first_data_all_blank rows :
  forallb is_blank rows = true -> first_data rows = None.
Proof.
  induction rows as [|r t IH]; cbn; [reflexivity|].
  intros H. apply andb_prop in H as [Hr Ht]. rewrite Hr. auto.
Qed.

Lemma opened_set_reader c r s a g : opened (set_reader c r s) a g = opened s a g.
Proof. destruct c; reflexivity. Qed.

(** Exhaustion, when both files can be opened again: the call goes on in
    the freshly opened state, one level deeper. *)
Lemma restart_eq fs depth c s rows a g :
  fs (acc_filename s) = Some a ->
  fs (gps_filename s) = Some g ->
  reader c s = Some rows ->
  first_data rows = None ->
  next_row fs (S depth) c s = next_row fs depth c (opened s a g).
Proof.
  intros Ha Hg Hr Hf.
  rewrite (next_row_exhausted fs depth c s rows Hr Hf).
  unfold bind.
  rewrite (open_files_ok fs (set_reader c (Some []) s) a g)
    by (destruct c; assumption).
  rewrite opened_set_reader. reflexivity.
Qed.

(** ** Records that cannot be parsed *)

Ltac run_parse :=
  unfold parse_acc, parse_gps, bind, index, int, float, ret, raise; cbn.

Lemma parse_acc_cases row :
  (exists a, forall s, parse_acc row s = (Ret a, s)) \/
  (exists e, MalformedRecord e /\ forall s, parse_acc row s = (Raise e, s)).
Proof.
  destruct row as [|c0 [|c1 [|c2 t]]]; run_parse;
    repeat match goal with
           | |- context [py_int ?c] => destruct (py_int c)
           end;
    solve [ left; eexists; intros; reflexivity
          | right; exists IndexError; split; [left; reflexivity | intros; reflexivity]
          | right; exists ValueError; split; [right; reflexivity | intros; reflexivity] ].
Qed.

Lemma parse_gps_cases row :
  (exists a, forall s, parse_gps row s = (Ret a, s)) \/
  (exists e, MalformedRecord e /\ forall s, parse_gps row s = (Raise e, s)).
Proof.
  destruct row as [|c0 [|c1 t]]; run_parse;
    repeat match goal with
           | |- context [py_float ?c] => destruct (py_float c)
           end;
    solve [ left; eexists; intros; reflexivity
          | right; exists IndexError; split; [left; reflexivity | intros; reflexivity]
          | right; exists ValueError; split; [right; reflexivity | intros; reflexivity] ].
Qed.



(** [read], once both rows are fetched. *)
Lemma read_after_fetch fs depth s s0 ra s1 rg s2 :
  ensure_open fs s = (Ret tt, s0) ->
  next_row fs depth Acc s0 = (Ret ra, s1) ->
  next_row fs depth Gps s1 = (Ret rg, s2) ->
  read fs depth s =
  (a <- parse_acc ra ;; g <- parse_gps rg ;;
   now <- get clock ;; ret (mkAggregated a g now)) s2.
Proof.
  intros H0 H1 H2. unfold read.
  unfold bind at 1. rewrite H0.
  unfold bind at 1. rewrite H1.
  unfold bind at 1. rewrite H2. reflexivity.
Qed.


(** ** Wrap-around *)

Lemma reader_opened_pick c s a g :
  reader c (opened s a g) = Some (tl (pick c a g)).
Proof. destruct c; reflexivity. Qed.

Lemma skipn_cons_nth {A} (d : A) (l : list A) j :
  j < List.length l -> skipn j l = nth j l d :: skipn (S j) l.
Proof.
  revert j. induction l as [|h t IH]; intros j Hj; cbn in Hj; [lia|].
  destruct j as [|j]; [reflexivity|].
  cbn [skipn nth]. rewrite (IH j) by lia. reflexivity.
Qed.

Lemma map_seq_succ {T} (f : nat -> T) n :
  map f (seq 0 (S n)) = f 0 :: map (fun k => f (S k)) (seq 0 n).
Proof.
  cbn [seq map]. f_equal. rewrite <- seq_shift, map_map. reflexivity.
Qed.

(** From a position [j] in the data of the channel, the fetches go round
    the data of the channel for ever. *)
Lemma fetches_cycle fs depth c a g :
  let data := filter nonblank (tl (pick c a g)) in
  let N := List.length data in
  1 <= N ->
  forall n s j rows,
    fs (acc_filename s) = Some a ->
    fs (gps_filename s) = Some g ->
    reader c s = Some rows ->
    filter nonblank rows = skipn j data ->
    j <= N ->
    run_fetches fs (S depth) (repeat c n) s =
    map (fun k => Ret (nth ((j + k) mod N) data [])) (seq 0 n).
Proof.
  intros data N HN. induction n as [|n IH]; intros s j rows Ha Hg Hr Hrows Hj.
  - reflexivity.
  - rewrite map_seq_succ. cbn [repeat run_fetches].
    destruct (Nat.eq_dec j N) as [->|Hne].
    + (* the source is exhausted: restart *)
      assert (Hnone : first_data rows = None).
      { apply first_data_none. rewrite Hrows. apply skipn_all. }
      rewrite (restart_eq fs depth c s rows a g Ha Hg Hr Hnone).
      assert (Hd : filter nonblank (tl (pick c a g)) = nth 0 data [] :: skipn 1 data).
      { change (filter nonblank (tl (pick c a g))) with (skipn 0 data).
        apply skipn_cons_nth. fold N. lia. }
      apply first_data_some in Hd as (t & Hfd & Ht).
      rewrite (next_row_found fs depth c (opened s a g) _ _ t
                 (reader_opened_pick c s a g) Hfd).
      rewrite Nat.add_0_r, Nat.Div0.mod_same. f_equal.
      rewrite (IH (set_reader c (Some t) (opened s a g)) 1 t);
        [ | destruct c; assumption | destruct c; assumption
          | apply set_reader_same | exact Ht | exact HN ].
      apply map_ext. intros k.
      replace (N + S k) with (S k + 1 * N) by lia.
      rewrite Nat.Div0.mod_add. reflexivity.
    + assert (Hlt : j < N) by lia.
      assert (Hd : filter nonblank rows = nth j data [] :: skipn (S j) data).
      { rewrite Hrows. apply skipn_cons_nth. exact Hlt. }
      apply first_data_some in Hd as (t & Hfd & Ht).
      rewrite (next_row_found fs (S depth) c s rows _ t Hr Hfd).
      rewrite Nat.add_0_r, Nat.mod_small by exact Hlt. f_equal.
      rewrite (IH (set_reader c (Some t) s) (S j) t);
        [ | destruct c; assumption | destruct c; assumption
          | apply set_reader_same | exact Ht | exact Hlt ].
      apply map_ext. intros k.
      replace (S j + k) with (j + S k) by lia. reflexivity.
Qed.

(** A channel whose file holds no data after its first row: the call goes
    deeper than any bound. *)
Lemma no_data_hits_limit fs c a g :
  first_data (tl (pick c a g)) = None ->
  forall depth s rows,
    fs (acc_filename s) = Some a ->
    fs (gps_filename s) = Some g ->
    reader c s = Some rows ->
    first_data rows = None ->
    exists s', next_row fs depth c s = (Raise RecursionError, s').
Proof.
  intros Hsrc. induction depth as [|depth IH]; intros s rows Ha Hg Hr Hf.
  - eexists. apply (next_row_too_deep fs c s rows Hr Hf).
  - rewrite (restart_eq fs depth c s rows a g Ha Hg Hr Hf).
    apply (IH (opened s a g) (tl (pick c a g))); try assumption.
    apply reader_opened_pick.
Qed.

Lemma all_blank_tl rows :
  forallb is_blank rows = true -> forallb is_blank (tl rows) = true.
Proof.
  destruct rows as [|r t]; cbn; [reflexivity|].
  intros H. apply andb_prop in H. apply H.
Qed.

(** What opening consumes is never a row of data when no row is mistaken
    for a header. *)
Lemma data_rows_tl cols src :
  no_row_mistaken cols src ->
  data_rows cols src = filter nonblank (tl src).
Proof.
  destruct src as [|r t]; cbn [no_row_mistaken data_rows tl]; [reflexivity|].
  intros [Hh|Hb].
  - rewrite Hh. reflexivity.
  - destruct (is_header cols r); [reflexivity|].
    cbn [filter]. unfold nonblank at 1. rewrite Hb. reflexivity.
Qed.

(** ** Blank rows are invisible *)

Lemma blank_ins_filter l l' :
  blank_ins l l' -> filter nonblank l = filter nonblank l'.
Proof.
  induction 1 as [|r l l' _ IH|b l l' Hb _ IH]; cbn [filter].
  - reflexivity.
  - rewrite IH. reflexivity.
  - unfold nonblank at 2. rewrite Hb. exact IH.
Qed.

Lemma spaced_out_tl src src' :
  spaced_out src src' -> filter nonblank (tl src) = filter nonblank (tl src').
Proof.
  destruct src as [|r t], src' as [|r' t']; cbn; try tauto.
  intros [_ H]. apply blank_ins_filter. exact H.
Qed.

Lemma sim_reader c s s' : sim s s' -> same_data (reader c s) (reader c s').
Proof. intros (_ & _ & Ha & Hg). destruct c; assumption. Qed.

Lemma sim_set_reader c l l' s s' :
  sim s s' ->
  filter nonblank l = filter nonblank l' ->
  sim (set_reader c (Some l) s) (set_reader c (Some l') s').
Proof.
  intros (Han & Hgn & Ha & Hg) Hl.
  destruct c; repeat split; cbn; assumption.
Qed.

Lemma sim_opened s s' a a' g g' :
  acc_filename s = acc_filename s' ->
  gps_filename s = gps_filename s' ->
  filter nonblank (tl a) = filter nonblank (tl a') ->
  filter nonblank (tl g) = filter nonblank (tl g') ->
  sim (opened s a g) (opened s' a' g').
Proof.
  intros Han Hgn Ha Hg. repeat split; cbn; assumption.
Qed.

(** One fetch, on two hosts whose files differ in blank rows only. *)
Lemma next_row_sim fs fs' a a' g g' c :
  filter nonblank (tl a) = filter nonblank (tl a') ->
  filter nonblank (tl g) = filter nonblank (tl g') ->
  forall depth s s',
    sim s s' ->
    fs (acc_filename s) = Some a -> fs (gps_filename s) = Some g ->
    fs' (acc_filename s') = Some a' -> fs' (gps_filename s') = Some g' ->
    fst (next_row fs depth c s) = fst (next_row fs' depth c s') /\
    sim (snd (next_row fs depth c s)) (snd (next_row fs' depth c s')).
Proof.
  intros Hta Htg. induction depth as [|depth IH]; intros s s' Hsim Ha Hg Ha' Hg';
    pose proof (sim_reader c s s' Hsim) as Hrd;
    destruct (reader c s) as [l|] eqn:Hr; [|contradiction| |contradiction];
    destruct (reader c s') as [l'|] eqn:Hr'; try contradiction;
    cbn [same_data] in Hrd;
    pose proof (first_data_filter l) as Hl;
    destruct (first_data l) as [[r t]|] eqn:Hf.
  - destruct Hl as [Hl _]. rewrite Hl in Hrd. symmetry in Hrd.
    apply first_data_some in Hrd as (t' & Hf' & Ht').
    rewrite (next_row_found fs 0 c s l r t Hr Hf).
    rewrite (next_row_found fs' 0 c s' l' r t' Hr' Hf').
    split; [reflexivity|]. apply sim_set_reader; [assumption|congruence].
  - rewrite Hl in Hrd. symmetry in Hrd. apply first_data_none in Hrd.
    rewrite (next_row_too_deep fs c s l Hr Hf).
    rewrite (next_row_too_deep fs' c s' l' Hr' Hrd).
    split; [reflexivity|]. apply sim_set_reader; [assumption|reflexivity].
  - destruct Hl as [Hl _]. rewrite Hl in Hrd. symmetry in Hrd.
    apply first_data_some in Hrd as (t' & Hf' & Ht').
    rewrite (next_row_found fs (S depth) c s l r t Hr Hf).
    rewrite (next_row_found fs' (S depth) c s' l' r t' Hr' Hf').
    split; [reflexivity|]. apply sim_set_reader; [assumption|congruence].
  - rewrite Hl in Hrd. symmetry in Hrd. apply first_data_none in Hrd.
    rewrite (restart_eq fs depth c s l a g Ha Hg Hr Hf).
    rewrite (restart_eq fs' depth c s' l' a' g' Ha' Hg' Hr' Hrd).
    apply IH; try assumption.
    apply sim_opened; try assumption; apply Hsim.
Qed.

Lemma open_files_filenames fs s :
  acc_filename (snd (open_files fs s)) = acc_filename s /\
  gps_filename (snd (open_files fs s)) = gps_filename s.
Proof.
  destruct (fs (acc_filename s)) as [a|] eqn:Ha.
  - destruct (fs (gps_filename s)) as [g|] eqn:Hg.
    + rewrite (open_files_ok fs s a g Ha Hg). split; reflexivity.
    + rewrite (open_files_gps_missing fs s a Ha Hg). split; reflexivity.
  - rewrite (open_files_acc_missing fs s Ha). split; reflexivity.
Qed.

Lemma next_row_filenames fs depth c s :
  acc_filename (snd (next_row fs depth c s)) = acc_filename s /\
  gps_filename (snd (next_row fs depth c s)) = gps_filename s.
Proof.
  revert s. induction depth as [|depth IH]; intros s;
    (destruct (reader c s) as [rows|] eqn:Hr;
     [|rewrite (next_row_unopened fs _ c s Hr); split; reflexivity]);
    destruct (first_data rows) as [[r t]|] eqn:Hf.
  - rewrite (next_row_found fs 0 c s rows r t Hr Hf). destruct c; split; reflexivity.
  - rewrite (next_row_too_deep fs c s rows Hr Hf). destruct c; split; reflexivity.
  - rewrite (next_row_found fs (S depth) c s rows r t Hr Hf).
    destruct c; split; reflexivity.
  - rewrite (next_row_exhausted fs depth c s rows Hr Hf). unfold bind.
    pose proof (open_files_filenames fs (set_reader c (Some []) s)) as [O1 O2].
    destruct (open_files fs (set_reader c (Some []) s)) as [[[]|e] st];
      cbn [snd] in *.
    + destruct (IH st) as [I1 I2]. rewrite I1, I2, O1, O2.
      destruct c; split; reflexivity.
    + rewrite O1, O2. destruct c; split; reflexivity.
Qed.

Lemma run_fetches_sim fs fs' a a' g g' depth :
  filter nonblank (tl a) = filter nonblank (tl a') ->
  filter nonblank (tl g) = filter nonblank (tl g') ->
  forall cs s s',
    sim s s' ->
    fs (acc_filename s) = Some a -> fs (gps_filename s) = Some g ->
    fs' (acc_filename s') = Some a' -> fs' (gps_filename s') = Some g' ->
    run_fetches fs depth cs s = run_fetches fs' depth cs s'.
Proof.
  intros Hta Htg. induction cs as [|c cs IH]; intros s s' Hsim Ha Hg Ha' Hg'.
  - reflexivity.
  - cbn [run_fetches].
    destruct (next_row_sim fs fs' a a' g g' c Hta Htg depth s s' Hsim Ha Hg Ha' Hg')
      as [Ho Hs].
    destruct (next_row_filenames fs depth c s) as [N1 N2].
    destruct (next_row_filenames fs' depth c s') as [N1' N2'].
    destruct (next_row fs depth c s) as [o t].
    destruct (next_row fs' depth c s') as [o' t'].
    cbn [fst snd] in *. subst o'. f_equal.
    apply IH; try assumption; congruence.
Qed.

(** A fetch never answers a blank row. *)
Lemma next_row_nonblank fs depth c s r s' :
  next_row fs depth c s = (Ret r, s') -> is_blank r = false.
Proof.
  revert s. induction depth as [|depth IH]; intros s;
    (destruct (reader c s) as [rows|] eqn:Hr;
     [|rewrite (next_row_unopened fs _ c s Hr); discriminate]);
    pose proof (first_data_filter rows) as Hl;
    destruct (first_data rows) as [[r0 t]|] eqn:Hf.
  - rewrite (next_row_found fs 0 c s rows r0 t Hr Hf). intros [= <- _]. apply Hl.
  - rewrite (next_row_too_deep fs c s rows Hr Hf). discriminate.
  - rewrite (next_row_found fs (S depth) c s rows r0 t Hr Hf). intros [= <- _]. apply Hl.
  - rewrite (next_row_exhausted fs depth c s rows Hr Hf). unfold bind.
    destruct (open_files fs (set_reader c (Some []) s)) as [[[]|e] st];
      try discriminate.
    apply IH.
Qed.

Lemma run_fetches_nonblank fs depth cs s r :
  In (Ret r) (run_fetches fs depth cs s) -> is_blank r = false.
Proof.
  revert s. induction cs as [|c cs IH]; intros s; cbn [run_fetches].
  - intros [].
  - destruct (next_row fs depth c s) as [o t] eqn:Hn.
    intros [->|Hin].
    + apply (next_row_nonblank fs depth c s r t Hn).
    + apply (IH t Hin).
Qed.


Lemma closed_descriptors s : consistent s -> descriptors (closed s) = 0.
Proof.
  unfold consistent, held.
  destruct s as [an gn [f|] [g|] ra rg n k]; cbn; intros ->; reflexivity.
Qed.

Lemma ensure_open_opened fs s :
  acc_reader s <> None -> gps_reader s <> None ->
  ensure_open fs s = (Ret tt, s).
Proof.
  intros Ha Hg. unfold ensure_open, bind, get.
  destruct (acc_reader s); [|congruence].
  destruct (gps_reader s); [|congruence]. reflexivity.
Qed.

Lemma ensure_open_unopened fs s :
  acc_reader s = None \/ gps_reader s = None ->
  ensure_open fs s = open_files fs s.
Proof.
  intros H. unfold ensure_open, bind, get.
  destruct (acc_reader s), (gps_reader s); cbn; try reflexivity.
  destruct H; discriminate.
Qed.

(** ** Interleaved fetches *)

Lemma channel_eqb_true c' c : channel_eqb c' c = true -> c' = c.
Proof. destruct c', c; (reflexivity || discriminate). Qed.

Lemma channel_eqb_false c' c : channel_eqb c' c = false -> c' = other c.
Proof. destruct c', c; (reflexivity || discriminate). Qed.

Lemma has_data_some o :
  has_data o = true ->
  exists rows r t, o = Some rows /\ first_data rows = Some (r, t).
Proof.
  destruct o as [rows|]; cbn [has_data]; [|discriminate].
  destruct (first_data rows) as [[r t]|] eqn:E; [|discriminate].
  intros _. exists rows, r, t. split; [reflexivity|exact E].
Qed.

(** The cycle of [fetches_cycle], with fetches on the other channel in
    between that do not restart the sources. *)
Lemma fetches_cycle_undisturbed fs depth c a g :
  let data := filter nonblank (tl (pick c a g)) in
  let N := List.length data in
  1 <= N ->
  forall cs s j rows,
    fs (acc_filename s) = Some a ->
    fs (gps_filename s) = Some g ->
    reader c s = Some rows ->
    filter nonblank rows = skipn j data ->
    j <= N ->
    undisturbed fs (S depth) c cs s = true ->
    results_on c cs (run_fetches fs (S depth) cs s) =
    map (fun k => Ret (nth ((j + k) mod N) data [])) (seq 0 (count_on c cs)).
Proof.
  intros data N HN. induction cs as [|c' cs IH]; intros s j rows Ha Hg Hr Hrows Hj Hu.
  - reflexivity.
  - cbn [undisturbed] in Hu. apply andb_prop in Hu as [Hc Hu].
    cbn [run_fetches count_on].
    destruct (channel_eqb c' c) eqn:Ec.
    + apply channel_eqb_true in Ec. subst c'. rewrite map_seq_succ.
      destruct (Nat.eq_dec j N) as [->|Hne].
      * assert (Hnone : first_data rows = None).
        { apply first_data_none. rewrite Hrows. apply skipn_all. }
        rewrite (restart_eq fs depth c s rows a g Ha Hg Hr Hnone) in Hu |- *.
        assert (Hd : filter nonblank (tl (pick c a g)) = nth 0 data [] :: skipn 1 data).
        { change (filter nonblank (tl (pick c a g))) with (skipn 0 data).
          apply skipn_cons_nth. fold N. lia. }
        apply first_data_some in Hd as (t & Hfd & Ht).
        rewrite (next_row_found fs depth c (opened s a g) _ _ t
                   (reader_opened_pick c s a g) Hfd) in Hu |- *.
        cbn [results_on snd] in Hu |- *.
        replace (channel_eqb c c) with true by (destruct c; reflexivity).
        rewrite Nat.add_0_r, Nat.Div0.mod_same. f_equal.
        rewrite (IH (set_reader c (Some t) (opened s a g)) 1 t);
          [ | destruct c; assumption | destruct c; assumption
            | apply set_reader_same | exact Ht | exact HN | exact Hu ].
        apply map_ext. intros k.
        replace (N + S k) with (S k + 1 * N) by lia.
        rewrite Nat.Div0.mod_add. reflexivity.
      * assert (Hlt : j < N) by lia.
        assert (Hd : filter nonblank rows = nth j data [] :: skipn (S j) data).
        { rewrite Hrows. apply skipn_cons_nth. exact Hlt. }
        apply first_data_some in Hd as (t & Hfd & Ht).
        rewrite (next_row_found fs (S depth) c s rows _ t Hr Hfd) in Hu |- *.
        cbn [results_on snd] in Hu |- *.
        replace (channel_eqb c c) with true by (destruct c; reflexivity).
        rewrite Nat.add_0_r, Nat.mod_small by exact Hlt. f_equal.
        rewrite (IH (set_reader c (Some t) s) (S j) t);
          [ | destruct c; assumption | destruct c; assumption
            | apply set_reader_same | exact Ht | exact Hlt | exact Hu ].
        apply map_ext. intros k.
        replace (S j + k) with (j + S k) by lia. reflexivity.
    + cbn [orb] in Hc. apply has_data_some in Hc as (rows' & r' & t' & Hr' & Hf').
      rewrite (next_row_found fs (S depth) c' s rows' r' t' Hr' Hf') in Hu |- *.
      cbn [results_on snd] in Hu |- *. rewrite Ec.
      apply channel_eqb_false in Ec. subst c'.
      apply (IH (set_reader (other c) (Some t') s) j rows);
        destruct c; assumption.
Qed.


(** * The claims *)

(** C2 (amended).  Each channel keeps its own read position as long as no
    source runs out: a fetch that finds a row of data moves its own cursor
    and leaves the other channel's reader as it was.  Restarting is shared:
    a fetch that exhausts its source re-opens both files, so the other
    channel's reader is put back at the start of its source (after the row
    that opening consumes), whatever its position was.  (When the re-opened
    source holds no data either, the fetch goes on re-opening until the
    recursion limit stops it.) *)
Theorem C2_restart_is_shared fs depth c s rows a g :
  reader c s = Some rows ->
  fs (acc_filename s) = Some a ->
  fs (gps_filename s) = Some g ->
  match first_data rows with
  | Some (r, t) =>
      next_row fs depth c s = (Ret r, set_reader c (Some t) s) /\
      reader (other c) (set_reader c (Some t) s) = reader (other c) s
  | None =>
      match first_data (tl (pick c a g)) with
      | Some (r, t) =>
          next_row fs (S depth) c s =
            (Ret r, set_reader c (Some t) (opened s a g)) /\
          reader (other c) (set_reader c (Some t) (opened s a g)) =
            Some (tl (pick (other c) a g))
      | None => exists s', next_row fs (S depth) c s = (Raise RecursionError, s')
      end
  end.
Proof.
  intros Hr Ha Hg.
  destruct (first_data rows) as [[r t]|] eqn:Hf.
  - split.
    + apply (next_row_found fs depth c s rows r t Hr Hf).
    + apply set_reader_other.
  - destruct (first_data (tl (pick c a g))) as [[r t]|] eqn:Hsrc.
    + rewrite (restart_eq fs depth c s rows a g Ha Hg Hr Hf). split.
      * apply (next_row_found fs depth c (opened s a g) _ r t
                 (reader_opened_pick c s a g) Hsrc).
      * rewrite set_reader_other. apply reader_opened_pick.
    + apply (no_data_hits_limit fs c a g Hsrc (S depth) s rows Ha Hg Hr Hf).
Qed.

(** C3 (amended).  On a source with [N >= 1] rows of data, where the row
    consumed at opening is a header or a blank row (no row of data is
    mistaken for a header), the fetches on that channel deliver the data
    repeated cyclically, fetch number [k+1] answering row number [k mod N]
    and fetch number [N+1] the first row again, as long as no fetch on the
    other channel restarts the sources in between: so for the fetches on
    that channel alone, and for any interleaving with fetches on the other
    channel that find data in their reader.  Both files can be opened, as a
    restart opens both; one nested call is enough for every fetch. *)
Theorem C3_fetches_cycle fs c s a g depth n :
  fs (acc_filename s) = Some a ->
  fs (gps_filename s) = Some g ->
  no_row_mistaken (expected_cols c) (pick c a g) ->
  1 <= List.length (data_rows (expected_cols c) (pick c a g)) ->
  exists s1,
    startReading fs s = (Ret tt, s1) /\
    run_fetches fs (S depth) (repeat c n) s1 =
      map Ret (cyclic (data_rows (expected_cols c) (pick c a g)) n) /\
    nth (List.length (data_rows (expected_cols c) (pick c a g)))
        (run_fetches fs (S depth)
           (repeat c (S (List.length (data_rows (expected_cols c) (pick c a g))))) s1)
        (Raise RecursionError) =
      Ret (nth 0 (data_rows (expected_cols c) (pick c a g)) []) /\
    forall cs,
      undisturbed fs (S depth) c cs s1 = true ->
      results_on c cs (run_fetches fs (S depth) cs s1) =
        map Ret (cyclic (data_rows (expected_cols c) (pick c a g)) (count_on c cs)).
Proof.
  intros Ha Hg Hh HN. exists (opened s a g).
  rewrite (data_rows_tl _ _ Hh) in *.
  assert (Hrun : forall m,
            run_fetches fs (S depth) (repeat c m) (opened s a g) =
            map Ret (cyclic (filter nonblank (tl (pick c a g))) m)).
  { intros m. unfold cyclic. rewrite map_map.
    apply (fetches_cycle fs depth c a g HN m (opened s a g) 0 (tl (pick c a g)));
      try assumption.
    - apply reader_opened_pick.
    - reflexivity.
    - lia. }
  split; [apply open_files_ok; assumption|]. split; [apply Hrun|]. split.
  - rewrite Hrun. unfold cyclic. rewrite map_map.
    set (N := List.length (filter nonblank (tl (pick c a g)))) in *.
    rewrite (nth_indep _ (Raise RecursionError)
               (Ret (nth (0 mod N) (filter nonblank (tl (pick c a g))) [])))
      by (rewrite length_map, length_seq; lia).
    rewrite (map_nth (fun k => Ret (nth (k mod N) (filter nonblank (tl (pick c a g))) []))
               (seq 0 (S N)) 0 N).
    rewrite seq_nth by lia. cbn [Nat.add]. rewrite Nat.Div0.mod_same. reflexivity.
  - intros cs Hu. unfold cyclic. rewrite map_map.
    apply (fetches_cycle_undisturbed fs depth c a g HN cs (opened s a g) 0
             (tl (pick c a g))); try assumption.
    + apply reader_opened_pick.
    + reflexivity.
    + lia.
Qed.

(** C4 (amended).  On an object whose descriptor count agrees with the
    files it holds: when one of the two files cannot be opened,
    [startReading] fails with [SourceUnavailable] and no cursor is usable
    afterwards: both readers are unset and no GPS file is held.  When the
    accelerometer file is the one that cannot be opened, no file is held at
    all.  When the accelerometer file opens and only the GPS file does not,
    the accelerometer file stays open and held by the object;
    [stopReading] then releases it. *)
Theorem C4_failed_start fs s :
  fs (acc_filename s) = None \/ fs (gps_filename s) = None ->
  consistent s ->
  exists e s',
    startReading fs s = (Raise e, s') /\ SourceUnavailable e /\
    acc_reader s' = None /\ gps_reader s' = None /\ gps_file s' = None /\
    (fs (acc_filename s) = None -> acc_file s' = None /\ descriptors s' = 0) /\
    (forall a, fs (acc_filename s) = Some a ->
               acc_file s' = Some (mkFile (acc_filename s) a) /\
               descriptors s' = 1) /\
    exists s'', stopReading s' = (Ret tt, s'') /\
                acc_file s'' = None /\ gps_file s'' = None /\
                descriptors s'' = 0.
Proof.
  intros Hmiss Hc. pose proof (closed_descriptors s Hc) as Hd.
  unfold startReading, stopReading.
  destruct (fs (acc_filename s)) as [a|] eqn:Ha.
  - destruct Hmiss as [Hm|Hm]; [discriminate|].
    exists OSError, (half_opened s a).
    rewrite (open_files_gps_missing fs s a Ha Hm), close_files_eq.
    do 5 (split; [reflexivity|]).
    split; [discriminate|]. split.
    + intros a0 [= <-]. split; [reflexivity|].
      unfold half_opened. cbn [descriptors]. rewrite Hd. reflexivity.
    + eexists. split; [reflexivity|]. do 2 (split; [reflexivity|]).
      unfold half_opened. unfold closed at 1.
      cbn [descriptors acc_file gps_file release pred]. exact Hd.
  - exists OSError, (closed s).
    rewrite (open_files_acc_missing fs s Ha), close_files_eq.
    do 5 (split; [reflexivity|]).
    split; [intros _; split; [reflexivity|exact Hd]|].
    split; [discriminate|].
    eexists. split; [reflexivity|]. do 2 (split; [reflexivity|]).
    unfold closed at 1. cbn [descriptors acc_file gps_file release closed].
    exact Hd.
Qed.


(** C6 (amended).  On a source that holds only blank rows, a fetch returns
    no row and detects nothing: every exhaustion re-opens the files and
    searches again, at every level of nesting, so that whatever number of
    nested calls the interpreter's recursion limit leaves room for is used
    up, and what reaches the caller is the interpreter's [RecursionError];
    the code raises nothing of its own.  Each level finds the object, after
    the re-open, in the very state the search started from. *)
Theorem C6_only_blank_rows_never_returns fs c s a g :
  fs (acc_filename s) = Some a ->
  fs (gps_filename s) = Some g ->
  forallb is_blank (pick c a g) = true ->
  exists s1,
    startReading fs s = (Ret tt, s1) /\
    (forall depth, exists s', next_row fs depth c s1 = (Raise RecursionError, s')) /\
    (forall depth, next_row fs (S depth) c s1 = next_row fs depth c s1).
Proof.
  intros Ha Hg Hb. exists (opened s a g).
  split; [apply open_files_ok; assumption|].
  assert (Hsrc : first_data (tl (pick c a g)) = None)
    by (apply first_data_all_blank, all_blank_tl, Hb).
  split.
  - intros depth.
    apply (no_data_hits_limit fs c a g Hsrc depth (opened s a g) (tl (pick c a g)));
      try assumption.
    apply reader_opened_pick.
  - intros depth.
    apply (restart_eq fs depth c (opened s a g) (tl (pick c a g)) a g);
      try assumption.
    apply reader_opened_pick.
Qed.

(** C7.  Inserting blank rows, any number and anywhere between the rows of
    the two sources, changes nothing in what the fetches answer, whatever
    the order in which the channels are fetched; and no fetch ever answers
    a blank row. *)
Theorem C7_blank_rows_invisible fs fs' s a a' g g' depth cs :
  fs (acc_filename s) = Some a -> fs (gps_filename s) = Some g ->
  fs' (acc_filename s) = Some a' -> fs' (gps_filename s) = Some g' ->
  spaced_out a a' -> spaced_out g g' ->
  exists s1 s1',
    startReading fs s = (Ret tt, s1) /\
    startReading fs' s = (Ret tt, s1') /\
    run_fetches fs depth cs s1 = run_fetches fs' depth cs s1' /\
    forall r, In (Ret r) (run_fetches fs' depth cs s1') -> is_blank r = false.
Proof.
  intros Ha Hg Ha' Hg' Sa Sg.
  exists (opened s a g), (opened s a' g').
  split; [apply open_files_ok; assumption|].
  split; [apply open_files_ok; assumption|].
  apply spaced_out_tl in Sa, Sg. split.
  - apply (run_fetches_sim fs fs' a a' g g' depth Sa Sg); try assumption.
    apply sim_opened; try assumption; reflexivity.
  - intros r. apply run_fetches_nonblank.
Qed.

(** C9.  When both files exist and hold no row at all, opening succeeds,
    through [startReading] as through the lazy start of [read]: the peek of
    the header detection meets the end of the file and is swallowed, both
    cursors are left open, and only the fetch of a later [read] fails (it
    re-opens until the recursion limit stops it). *)
Theorem C9_empty_files_open fs s :
  fs (acc_filename s) = Some [] ->
  fs (gps_filename s) = Some [] ->
  startReading fs s = (Ret tt, opened s [] []) /\
  (acc_reader s = None \/ gps_reader s = None ->
   ensure_open fs s = (Ret tt, opened s [] [])) /\
  acc_reader (opened s [] []) = Some [] /\
  gps_reader (opened s [] []) = Some [] /\
  acc_file (opened s [] []) <> None /\
  gps_file (opened s [] []) <> None /\
  forall depth, exists s', read fs depth (opened s [] []) = (Raise RecursionError, s').
Proof.
  intros Ha Hg.
  split; [apply open_files_ok; assumption|].
  split; [intros Hn; rewrite (ensure_open_unopened fs s Hn);
          apply open_files_ok; assumption|].
  do 2 (split; [reflexivity|]). do 2 (split; [discriminate|]).
  intros depth. unfold read. unfold bind at 1.
  rewrite ensure_open_opened by discriminate.
  destruct (no_data_hits_limit fs Acc [] [] eq_refl depth (opened s [] []) []
              Ha Hg eq_refl eq_refl) as [s' Hd].
  exists s'. unfold bind. rewrite Hd. reflexivity.
Qed.


(** * Further properties of the reader *)

(** ** What every method keeps *)

Lemma preserves_bind {A T} (P : Datasource -> Prop) (m : M A) (k : A -> M T) :
  preserves P m -> (forall a, preserves P (k a)) -> preserves P (bind m k).
Proof.
  intros Hm Hk s Hs. unfold bind. specialize (Hm s Hs).
  destruct (m s) as [[a|e] s']; cbn [snd] in *; try exact Hm.
  apply Hk. exact Hm.
Qed.

Lemma preserves_unchanged {A} (P : Datasource -> Prop) (m : M A) :
  (forall s, snd (m s) = s) -> preserves P m.
Proof. intros H s Hs. rewrite H. exact Hs. Qed.

Lemma stable_closed s0 s : stable s0 s -> stable s0 (closed s).
Proof.
  intros (Hc & Ha & Hg & Hk). pose proof (closed_descriptors s Hc) as Hd.
  split; [|repeat split; assumption].
  unfold consistent. rewrite Hd. reflexivity.
Qed.

Lemma stable_opened s0 s a g : stable s0 s -> stable s0 (opened s a g).
Proof.
  intros (Hc & Ha & Hg & Hk). pose proof (closed_descriptors s Hc) as Hd.
  split; [|repeat split; assumption].
  unfold consistent, opened, held. cbn [descriptors acc_file gps_file is_None].
  rewrite Hd. reflexivity.
Qed.

Lemma stable_half_opened s0 s a : stable s0 s -> stable s0 (half_opened s a).
Proof.
  intros (Hc & Ha & Hg & Hk). pose proof (closed_descriptors s Hc) as Hd.
  split; [|repeat split; assumption].
  unfold consistent, half_opened, held. cbn [descriptors acc_file gps_file is_None].
  rewrite Hd. reflexivity.
Qed.

Lemma stable_set_reader s0 c r s : stable s0 s -> stable s0 (set_reader c r s).
Proof. intros H. destruct c; exact H. Qed.

Lemma stable_open_files s0 fs : preserves (stable s0) (open_files fs).
Proof.
  intros s Hs.
  destruct (fs (acc_filename s)) as [a|] eqn:Ha.
  - destruct (fs (gps_filename s)) as [g|] eqn:Hg.
    + rewrite (open_files_ok fs s a g Ha Hg). apply stable_opened, Hs.
    + rewrite (open_files_gps_missing fs s a Ha Hg). apply stable_half_opened, Hs.
  - rewrite (open_files_acc_missing fs s Ha). apply stable_closed, Hs.
Qed.

Lemma stable_close_files s0 : preserves (stable s0) close_files.
Proof. intros s Hs. rewrite close_files_eq. apply stable_closed, Hs. Qed.

Lemma stable_next_row s0 fs depth c : preserves (stable s0) (next_row fs depth c).
Proof.
  induction depth as [|depth IH]; intros s Hs;
    (destruct (reader c s) as [rows|] eqn:Hr;
     [|rewrite (next_row_unopened fs _ c s Hr); exact Hs]);
    destruct (first_data rows) as [[r t]|] eqn:Hf.
  - rewrite (next_row_found fs 0 c s rows r t Hr Hf). apply stable_set_reader, Hs.
  - rewrite (next_row_too_deep fs c s rows Hr Hf). apply stable_set_reader, Hs.
  - rewrite (next_row_found fs (S depth) c s rows r t Hr Hf).
    apply stable_set_reader, Hs.
  - rewrite (next_row_exhausted fs depth c s rows Hr Hf).
    apply (preserves_bind (stable s0) (open_files fs) (fun _ => next_row fs depth c)).
    + apply stable_open_files.
    + intros _. exact IH.
    + apply stable_set_reader, Hs.
Qed.

Lemma parse_acc_state row s : snd (parse_acc row s) = s.
Proof.
  destruct (parse_acc_cases row) as [[a H]|(e & _ & H)]; rewrite H; reflexivity.
Qed.

Lemma parse_gps_state row s : snd (parse_gps row s) = s.
Proof.
  destruct (parse_gps_cases row) as [[a H]|(e & _ & H)]; rewrite H; reflexivity.
Qed.

Lemma stable_ensure_open s0 fs : preserves (stable s0) (ensure_open fs).
Proof.
  intros s Hs. unfold ensure_open, bind, get.
  destruct (is_None (acc_reader s) || is_None (gps_reader s)).
  - apply stable_open_files, Hs.
  - exact Hs.
Qed.

Lemma stable_read s0 fs depth : preserves (stable s0) (read fs depth).
Proof.
  unfold read.
  apply preserves_bind; [apply stable_ensure_open|intros _].
  apply preserves_bind; [apply stable_next_row|intros acc_row].
  apply preserves_bind; [apply stable_next_row|intros gps_row].
  apply preserves_bind;
    [apply preserves_unchanged, parse_acc_state|intros a].
  apply preserves_bind;
    [apply preserves_unchanged, parse_gps_state|intros g].
  apply preserves_unchanged. reflexivity.
Qed.

Lemma stable_after_calls s0 depth ks s :
  stable s0 s -> stable s0 (after_calls depth ks s).
Proof.
  revert s. induction ks as [|[fs k] ks IH]; intros s Hs; [exact Hs|].
  cbn [after_calls fold_left]. apply IH. unfold do_call. cbn [fst snd].
  destruct k.
  - apply stable_open_files, Hs.
  - apply stable_close_files, Hs.
  - apply stable_read, Hs.
Qed.

Lemma stable_init an gn now : stable (init an gn now) (init an gn now).
Proof. repeat split. Qed.

(** [stopReading] never fails, leaves no file and no reader, and a second
    call changes nothing: closing an object that is not open is a no-op. *)
Theorem stopReading_idempotent s :
  exists s1,
    stopReading s = (Ret tt, s1) /\
    acc_file s1 = None /\ gps_file s1 = None /\
    acc_reader s1 = None /\ gps_reader s1 = None /\
    stopReading s1 = (Ret tt, s1).
Proof.
  exists (closed s). unfold stopReading. rewrite !close_files_eq.
  repeat split; reflexivity.
Qed.

(** Whatever calls are made on an object ([startReading], [stopReading],
    [read], in any order, on hosts whose files come and go, each call
    returning or raising), as long as none of them is stopped by the
    interpreter's recursion limit, the files the process holds open are
    those the object references, two at most: every re-open closes the
    files of the previous open first, and the file names are untouched. *)
Theorem no_descriptor_leak an gn now depth ks :
  within_limit depth ks (init an gn now) = true ->
  descriptors (after_calls depth ks (init an gn now)) =
    held (after_calls depth ks (init an gn now)) /\
  descriptors (after_calls depth ks (init an gn now)) <= 2 /\
  acc_filename (after_calls depth ks (init an gn now)) = an /\
  gps_filename (after_calls depth ks (init an gn now)) = gn.
Proof.
  intros _.
  destruct (stable_after_calls (init an gn now) depth ks (init an gn now)
              (stable_init an gn now)) as (Hc & Ha & Hg & _).
  split; [exact Hc|]. split; [|split; assumption].
  rewrite Hc. unfold held.
  destruct (is_None (acc_file _)), (is_None (gps_file _)); cbn; lia.
Qed.

(** [startReading] forgets the past: after any calls, on any hosts, it
    answers and leaves the object exactly as it does on the object just
    built, with both cursors back at the start. *)
Theorem startReading_rewinds fs an gn now depth ks :
  startReading fs (after_calls depth ks (init an gn now)) =
  startReading fs (init an gn now).
Proof.
  pose proof (stable_after_calls (init an gn now) depth ks (init an gn now)
                (stable_init an gn now)) as (Hc & Ha & Hg & Hk).
  set (s := after_calls depth ks (init an gn now)) in *.
  pose proof (closed_descriptors s Hc) as Hd.
  cbn [init acc_filename gps_filename clock] in Ha, Hg, Hk.
  unfold startReading.
  destruct (fs an) as [a|] eqn:Ea.
  - destruct (fs gn) as [g|] eqn:Eg.
    + rewrite (open_files_ok fs s a g), (open_files_ok fs (init an gn now) a g);
        try (cbn; congruence); try congruence.
      unfold opened. rewrite Hd, Ha, Hg, Hk. reflexivity.
    + rewrite (open_files_gps_missing fs s a),
              (open_files_gps_missing fs (init an gn now) a);
        try (cbn; congruence); try congruence.
      unfold half_opened. rewrite Hd, Ha, Hg, Hk. reflexivity.
  - rewrite (open_files_acc_missing fs s), (open_files_acc_missing fs (init an gn now));
      try (cbn; congruence); try congruence.
    unfold closed.
    change (release (gps_file s) (release (acc_file s) (descriptors s)))
      with (descriptors (closed s)).
    rewrite Hd, Ha, Hg, Hk. reflexivity.
Qed.

(** ** Opening and reading *)

(** After a successful open each reader stands behind the first row of its
    file, whatever that row holds (a header, data, a row of the wrong
    width, a blank row); on an empty file it stands at the end.  Both files
    are held, on the names given at construction. *)
Theorem open_consumes_first_row fs s a g :
  fs (acc_filename s) = Some a ->
  fs (gps_filename s) = Some g ->
  exists s1,
    startReading fs s = (Ret tt, s1) /\
    acc_reader s1 = Some (tl a) /\ gps_reader s1 = Some (tl g) /\
    acc_file s1 = Some (mkFile (acc_filename s) a) /\
    gps_file s1 = Some (mkFile (gps_filename s) g).
Proof.
  intros Ha Hg. exists (opened s a g).
  split; [apply open_files_ok; assumption|]. repeat split; reflexivity.
Qed.

Lemma open_files_then_ensure fs s s1 :
  open_files fs s = (Ret tt, s1) -> ensure_open fs s1 = (Ret tt, s1).
Proof.
  intros H.
  destruct (fs (acc_filename s)) as [a|] eqn:Ha.
  - destruct (fs (gps_filename s)) as [g|] eqn:Hg.
    + rewrite (open_files_ok fs s a g Ha Hg) in H. injection H as <-.
      apply ensure_open_opened; discriminate.
    + rewrite (open_files_gps_missing fs s a Ha Hg) in H. discriminate.
  - rewrite (open_files_acc_missing fs s Ha) in H. discriminate.
Qed.

(** The lazy start: on an object with a reader missing (never started, or
    stopped), [read] does what [startReading] followed by [read] does, in
    its answer and in the state it leaves, also when opening fails. *)
Theorem read_starts_lazily fs depth s :
  acc_reader s = None \/ gps_reader s = None ->
  read fs depth s = (startReading fs ;; read fs depth) s.
Proof.
  intros Hn. unfold startReading, read.
  unfold bind at 1. rewrite (ensure_open_unopened fs s Hn).
  unfold bind at 6.
  destruct (open_files fs s) as [[[]|e] s1] eqn:Ho; try reflexivity.
  unfold bind at 6. rewrite (open_files_then_ensure fs s s1 Ho). reflexivity.
Qed.

Lemma parse_acc_ok row c0 c1 c2 vx vy vz :
  nth_error row 0 = Some c0 -> nth_error row 1 = Some c1 ->
  nth_error row 2 = Some c2 ->
  py_int c0 = Some vx -> py_int c1 = Some vy -> py_int c2 = Some vz ->
  forall s, parse_acc row s = (Ret (mkAccelerometer vx vy vz), s).
Proof.
  intros H0 H1 H2 P0 P1 P2 s.
  destruct row as [|r0 [|r1 [|r2 t]]]; try discriminate.
  cbn in H0, H1, H2. injection H0 as ->. injection H1 as ->. injection H2 as ->.
  run_parse. rewrite P0, P1, P2. reflexivity.
Qed.

Lemma parse_gps_ok row c0 c1 lon lat :
  nth_error row 0 = Some c0 -> nth_error row 1 = Some c1 ->
  py_float c0 = Some lon -> py_float c1 = Some lat ->
  forall s, parse_gps row s = (Ret (mkGps lon lat), s).
Proof.
  intros H0 H1 P0 P1 s.
  destruct row as [|r0 [|r1 t]]; try discriminate.
  cbn in H0, H1. injection H0 as ->. injection H1 as ->.
  run_parse. rewrite P0, P1. reflexivity.
Qed.

(** When the first three fields of the fetched accelerometer row are
    integers and the first two fields of the fetched GPS row are floats,
    [read] returns the reading made of them, x, y, z in the order of the
    fields, the longitude before the latitude, stamped with the clock;
    fields beyond those are ignored. *)
Theorem read_well_formed fs depth s s0 ra s1 rg s2 c0 c1 c2 d0 d1 vx vy vz lon lat :
  ensure_open fs s = (Ret tt, s0) ->
  next_row fs depth Acc s0 = (Ret ra, s1) ->
  next_row fs depth Gps s1 = (Ret rg, s2) ->
  nth_error ra 0 = Some c0 -> nth_error ra 1 = Some c1 ->
  nth_error ra 2 = Some c2 ->
  py_int c0 = Some vx -> py_int c1 = Some vy -> py_int c2 = Some vz ->
  nth_error rg 0 = Some d0 -> nth_error rg 1 = Some d1 ->
  py_float d0 = Some lon -> py_float d1 = Some lat ->
  read fs depth s =
    (Ret (mkAggregated (mkAccelerometer vx vy vz) (mkGps lon lat) (clock s2)), s2).
Proof.
  intros H0 H1 H2 A0 A1 A2 P0 P1 P2 G0 G1 Q0 Q1.
  rewrite (read_after_fetch fs depth s s0 ra s1 rg s2 H0 H1 H2).
  unfold bind at 1. rewrite (parse_acc_ok ra c0 c1 c2 vx vy vz A0 A1 A2 P0 P1 P2).
  unfold bind at 1. rewrite (parse_gps_ok rg d0 d1 lon lat G0 G1 Q0 Q1).
  reflexivity.
Qed.

(** ** Termination on hosts with data *)

Lemma next_row_returns fs depth c s a g rows :
  fs (acc_filename s) = Some a ->
  fs (gps_filename s) = Some g ->
  reader c s = Some rows ->
  first_data (tl (pick c a g)) <> None ->
  exists r s',
    next_row fs (S depth) c s = (Ret r, s') /\
    acc_filename s' = acc_filename s /\ gps_filename s' = gps_filename s /\
    reader c s' <> None /\
    (reader (other c) s <> None -> reader (other c) s' <> None).
Proof.
  intros Ha Hg Hr Hsrc.
  destruct (first_data rows) as [[r t]|] eqn:Hf.
  - exists r, (set_reader c (Some t) s).
    split; [apply (next_row_found fs (S depth) c s rows r t Hr Hf)|].
    rewrite set_reader_same, set_reader_other.
    destruct c; repeat split; try discriminate; auto.
  - destruct (first_data (tl (pick c a g))) as [[r t]|] eqn:Hd; [|congruence].
    exists r, (set_reader c (Some t) (opened s a g)).
    rewrite (restart_eq fs depth c s rows a g Ha Hg Hr Hf).
    split; [apply (next_row_found fs depth c (opened s a g) _ r t
                     (reader_opened_pick c s a g) Hd)|].
    rewrite set_reader_same, set_reader_other.
    destruct c; repeat split; try discriminate; auto.
Qed.

(** With both files present and, in each, a row that is not blank after the
    first row, every [read], from any state of the object, comes back with
    at most one restart per fetch: it returns a reading or fails with
    [MalformedRecord], and never with an error of opening. *)
Theorem read_terminates fs depth s a g :
  fs (acc_filename s) = Some a ->
  fs (gps_filename s) = Some g ->
  first_data (tl a) <> None ->
  first_data (tl g) <> None ->
  returns_or_malformed (fst (read fs (S depth) s)).
Proof.
  intros Ha Hg Da Dg.
  assert (H0 : exists s0,
             ensure_open fs s = (Ret tt, s0) /\
             acc_filename s0 = acc_filename s /\ gps_filename s0 = gps_filename s /\
             acc_reader s0 <> None /\ gps_reader s0 <> None).
  { destruct (acc_reader s) as [ra|] eqn:Ea.
    - destruct (gps_reader s) as [rg|] eqn:Eg.
      + exists s. rewrite ensure_open_opened by congruence.
        repeat split; congruence.
      + exists (opened s a g). rewrite ensure_open_unopened by (right; exact Eg).
        rewrite (open_files_ok fs s a g Ha Hg). repeat split; discriminate.
    - exists (opened s a g). rewrite ensure_open_unopened by (left; exact Ea).
      rewrite (open_files_ok fs s a g Ha Hg). repeat split; discriminate. }
  destruct H0 as (s0 & H0 & Fa & Fg & Ra & Rg).
  destruct (acc_reader s0) as [rowsA|] eqn:EA; [|congruence].
  destruct (next_row_returns fs depth Acc s0 a g rowsA) as (ra & s1 & H1 & Fa1 & Fg1 & _ & Rg1);
    try congruence; try assumption.
  specialize (Rg1 Rg). cbn [reader other] in Rg1.
  destruct (gps_reader s1) as [rowsG|] eqn:EG; [|congruence].
  destruct (next_row_returns fs depth Gps s1 a g rowsG) as (rg & s2 & H2 & _);
    try congruence; try assumption.
  rewrite (read_after_fetch fs (S depth) s s0 ra s1 rg s2 H0 H1 H2).
  destruct (parse_acc_cases ra) as [[va Hva]|(e & He & Hr)].
  - unfold bind at 1. rewrite Hva.
    destruct (parse_gps_cases rg) as [[vg Hvg]|(e & He & Hr)].
    + unfold bind at 1. rewrite Hvg. exact I.
    + unfold bind at 1. rewrite Hr. exact He.
  - unfold bind at 1. rewrite Hr. exact He.
Qed.

(** ** Pairing by call count *)

Lemma paired_clock ra rg s s' :
  clock s = clock s' -> paired ra rg s = (fst (paired ra rg s'), s).
Proof.
  intros Hk. unfold paired, bind.
  destruct (parse_acc_cases ra) as [[va Hva]|(e & _ & Hr)].
  - rewrite (Hva s), (Hva s').
    destruct (parse_gps_cases rg) as [[vg Hvg]|(e & _ & Hr)].
    + rewrite (Hvg s), (Hvg s'). unfold get, ret. cbn. rewrite Hk. reflexivity.
    + rewrite (Hr s), (Hr s'). reflexivity.
  - rewrite (Hr s), (Hr s'). reflexivity.
Qed.

Lemma clock_set_reader c r s : clock (set_reader c r s) = clock s.
Proof. destruct c; reflexivity. Qed.

Lemma mod_succ_congr n i j : i mod n = j mod n -> S i mod n = S j mod n.
Proof.
  intros H.
  replace (S i) with (i + 1) by lia. replace (S j) with (j + 1) by lia.
  rewrite (Nat.Div0.add_mod i 1 n), (Nat.Div0.add_mod j 1 n), H. reflexivity.
Qed.

(** From a common position [j] in the data of the two channels, the reads
    go round the accelerometer data and take the GPS data along. *)
Lemma reads_cycle fs depth a g sref :
  let da := filter nonblank (tl a) in
  let dg := filter nonblank (tl g) in
  let N := List.length da in
  1 <= N -> N <= List.length dg ->
  forall times s i j rowsA rowsG,
    fs (acc_filename s) = Some a ->
    fs (gps_filename s) = Some g ->
    acc_reader s = Some rowsA -> filter nonblank rowsA = skipn j da ->
    gps_reader s = Some rowsG -> filter nonblank rowsG = skipn j dg ->
    j <= N -> i mod N = j mod N ->
    run_reads_at fs (S depth) times s = lockstep da dg N i times sref.
Proof.
  intros da dg N HN HNg. induction times as [|t times IH];
    intros s i j rowsA rowsG Ha Hg HrA HfA HrG HfG Hj Hij.
  - reflexivity.
  - cbn [run_reads_at lockstep].
    set (st := set_clock t s).
    assert (H0 : ensure_open fs st = (Ret tt, st))
      by (apply ensure_open_opened; cbn; congruence).
    destruct (Nat.eq_dec j N) as [->|Hne].
    + (* the accelerometer source is exhausted: both restart *)
      assert (Hnone : first_data rowsA = None).
      { apply first_data_none. rewrite HfA. apply skipn_all. }
      assert (HdA : filter nonblank (tl a) = nth 0 da [] :: skipn 1 da).
      { change (filter nonblank (tl a)) with (skipn 0 da).
        apply skipn_cons_nth. fold N. lia. }
      assert (HdG : filter nonblank (tl g) = nth 0 dg [] :: skipn 1 dg).
      { change (filter nonblank (tl g)) with (skipn 0 dg).
        apply skipn_cons_nth. lia. }
      apply first_data_some in HdA as (tA & HfdA & HtA).
      apply first_data_some in HdG as (tG & HfdG & HtG).
      assert (H1 : next_row fs (S depth) Acc st =
                   (Ret (nth 0 da []), set_reader Acc (Some tA) (opened st a g))).
      { rewrite (restart_eq fs depth Acc st rowsA a g Ha Hg HrA Hnone).
        apply (next_row_found fs depth Acc (opened st a g) (tl a) _ tA eq_refl HfdA). }
      assert (H2 : next_row fs (S depth) Gps (set_reader Acc (Some tA) (opened st a g)) =
                   (Ret (nth 0 dg []),
                    set_reader Gps (Some tG) (set_reader Acc (Some tA) (opened st a g)))).
      { apply (next_row_found fs (S depth) Gps
                 (set_reader Acc (Some tA) (opened st a g)) (tl g) _ tG eq_refl HfdG). }
      rewrite (read_after_fetch fs (S depth) st st _ _ _ _ H0 H1 H2).
      fold (paired (nth 0 da []) (nth 0 dg [])).
      rewrite (paired_clock _ _ _ (set_clock t sref)) by reflexivity.
      rewrite Hij, Nat.Div0.mod_same. f_equal.
      apply (IH _ (S i) 1 tA tG); try assumption; try reflexivity.
      apply mod_succ_congr. rewrite Hij, Nat.Div0.mod_same.
      symmetry. apply Nat.Div0.mod_0_l.
    + assert (Hlt : j < N) by lia.
      assert (HdA : filter nonblank rowsA = nth j da [] :: skipn (S j) da).
      { rewrite HfA. apply skipn_cons_nth. exact Hlt. }
      assert (HdG : filter nonblank rowsG = nth j dg [] :: skipn (S j) dg).
      { rewrite HfG. apply skipn_cons_nth. lia. }
      apply first_data_some in HdA as (tA & HfdA & HtA).
      apply first_data_some in HdG as (tG & HfdG & HtG).
      assert (H1 : next_row fs (S depth) Acc st =
                   (Ret (nth j da []), set_reader Acc (Some tA) st)).
      { apply (next_row_found fs (S depth) Acc st rowsA _ tA HrA HfdA). }
      assert (H2 : next_row fs (S depth) Gps (set_reader Acc (Some tA) st) =
                   (Ret (nth j dg []),
                    set_reader Gps (Some tG) (set_reader Acc (Some tA) st))).
      { apply (next_row_found fs (S depth) Gps
                 (set_reader Acc (Some tA) st) rowsG _ tG HrG HfdG). }
      rewrite (read_after_fetch fs (S depth) st st _ _ _ _ H0 H1 H2).
      fold (paired (nth j da []) (nth j dg [])).
      rewrite (paired_clock _ _ _ (set_clock t sref)) by reflexivity.
      rewrite Hij, Nat.mod_small by exact Hlt. f_equal.
      apply (IH _ (S i) (S j) tA tG); try assumption; try reflexivity.
      apply mod_succ_congr. exact Hij.
Qed.

(** Pairing by call count.  When the accelerometer source holds [N >= 1]
    rows of data after its first row and the GPS source at least as many,
    the reads stay in step for ever: read number [k+1] pairs accelerometer
    row [k mod N] with GPS row [k mod N], and stamps the reading with the
    moment of that call.  Both sources restart when the accelerometer
    source runs out, so a GPS row beyond the first [N] is never
    delivered. *)
Theorem reads_in_lockstep fs s a g depth times :
  fs (acc_filename s) = Some a ->
  fs (gps_filename s) = Some g ->
  1 <= List.length (filter nonblank (tl a)) ->
  List.length (filter nonblank (tl a)) <= List.length (filter nonblank (tl g)) ->
  exists s1,
    startReading fs s = (Ret tt, s1) /\
    run_reads_at fs (S depth) times s1 =
    lockstep (filter nonblank (tl a)) (filter nonblank (tl g))
      (List.length (filter nonblank (tl a))) 0 times s1.
Proof.
  intros Ha Hg HN HNg. exists (opened s a g).
  split; [apply open_files_ok; assumption|].
  apply (reads_cycle fs depth a g (opened s a g) HN HNg times (opened s a g) 0 0
           (tl a) (tl g)); try assumption; try reflexivity.
  lia.
Qed.

(** ** The settings of the store *)

(** The port is never 0 and is always settled: it is the integer read from
    a non-empty [POSTGRES_PORT], and 5432 when that variable is unset,
    empty, not an integer, or the integer 0. *)
Theorem POSTGRES_PORT_settled env :
  POSTGRES_PORT env <> 0%Z /\
  (forall v n,
     env "POSTGRES_PORT" = Some v -> v <> "" -> py_int v = Some n -> n <> 0%Z ->
     POSTGRES_PORT env = n) /\
  (forall v,
     env "POSTGRES_PORT" = Some v -> v <> "" ->
     py_int v = None \/ py_int v = Some 0%Z ->
     POSTGRES_PORT env = 5432%Z) /\
  (py_int "" = None ->
   env "POSTGRES_PORT" = None \/ env "POSTGRES_PORT" = Some "" ->
   POSTGRES_PORT env = 5432%Z).
Proof.
  unfold POSTGRES_PORT, try_parse, int_call, get_or. repeat split.
  - destruct (env "POSTGRES_PORT") as [v|].
    + destruct (String.eqb v "");
        match goal with
        | |- context [py_int ?c] => destruct (py_int c) as [n|]
        end; try discriminate;
        destruct (Z.eqb n 0) eqn:En; try discriminate;
        apply Z.eqb_neq; exact En.
    + destruct (py_int "") as [n|]; try discriminate.
      destruct (Z.eqb n 0) eqn:En; try discriminate.
      apply Z.eqb_neq; exact En.
  - intros v n Hv Hne Hp Hn. rewrite Hv.
    apply String.eqb_neq in Hne. rewrite Hne, Hp.
    apply Z.eqb_neq in Hn. rewrite Hn. reflexivity.
  - intros v Hv Hne Hp. rewrite Hv.
    apply String.eqb_neq in Hne. rewrite Hne.
    destruct Hp as [-> | ->]; reflexivity.
  - intros He [Hv|Hv]; rewrite Hv; cbn; rewrite He; reflexivity.
Qed.

Lemma get_or_unset_empty env name default :
  get_or (unset_empty env) name default = get_or env name default.
Proof.
  unfold get_or, unset_empty.
  destruct (env name) as [v|]; [|reflexivity].
  destruct (String.eqb v "") eqn:E; [reflexivity|]. rewrite E. reflexivity.
Qed.

(** A variable set to the empty string counts as unset, for every setting:
    the five settings and the database URL are the same on an environment
    and on that environment with its empty variables removed, so an empty
    password, user, host or database name cannot be configured. *)
Theorem empty_variable_is_unset str env :
  POSTGRES_HOST (unset_empty env) = POSTGRES_HOST env /\
  POSTGRES_PORT (unset_empty env) = POSTGRES_PORT env /\
  POSTGRES_USER (unset_empty env) = POSTGRES_USER env /\
  POSTGRES_PASSWORD (unset_empty env) = POSTGRES_PASSWORD env /\
  POSTGRES_DB (unset_empty env) = POSTGRES_DB env /\
  DATABASE_URL str (unset_empty env) = DATABASE_URL str env /\
  POSTGRES_HOST env <> "" /\ POSTGRES_USER env <> "" /\
  POSTGRES_PASSWORD env <> "" /\ POSTGRES_DB env <> "".
Proof.
  unfold DATABASE_URL, POSTGRES_HOST, POSTGRES_PORT, POSTGRES_USER,
    POSTGRES_PASSWORD, POSTGRES_DB.
  rewrite !get_or_unset_empty.
  repeat split;
    unfold get_or;
    match goal with
    | |- context [env ?k] => destruct (env k) as [v|]; [|discriminate]
    end;
    destruct (String.eqb v "") eqn:E; try discriminate;
    apply String.eqb_neq; exact E.
Qed.

End Properties.

(** * The claims on concrete sources *)

(** C1 (not met by the code).  The accelerometer source starts with the row
    [1,2,3], which has the expected three fields and a numeric first field,
    followed by [4,5,6].  After opening, the two fetches answer [4,5,6] and
    [4,5,6] again: the numeric first row is consumed by the header
    detection and never delivered. *)
Theorem C1_numeric_first_row_dropped :
  List.length (hd [] acc_numeric_first) = expected_cols Acc /\
  py_float (Builtins := decimal) "1" = Some (1%Z, 0) /\
  run_fetches (B := decimal) (host (Some acc_numeric_first) (Some gps_two)) 1
    [Acc; Acc] (started (host (Some acc_numeric_first) (Some gps_two))) =
  [Ret ["4"; "5"; "6"]; Ret ["4"; "5"; "6"]].
Proof. repeat split; reflexivity. Qed.

(** C8 (not met by the code).  The accelerometer source starts with the row
    [1,2], two fields where three are expected, followed by [4,5,6].  After
    opening, the first fetch answers [4,5,6]: the first row was consumed by
    the peek and is not left in place. *)
Theorem C8_short_first_row_dropped :
  List.length (hd [] acc_short_first) <> expected_cols Acc /\
  reader Acc (started (host (Some acc_short_first) (Some gps_two))) =
    Some [["4"; "5"; "6"]] /\
  run_fetches (B := decimal) (host (Some acc_short_first) (Some gps_two)) 1
    [Acc] (started (host (Some acc_short_first) (Some gps_two))) =
  [Ret ["4"; "5"; "6"]].
Proof. repeat split; try reflexivity. discriminate. Qed.

(** C2, counterexample.  With the same GPS source of three samples, an
    accelerometer source of one sample makes every [read] deliver the first
    GPS sample, where an accelerometer source of three samples lets the
    reads deliver the three GPS samples in turn.  After the first [read] the
    GPS reader holds the second and third sample; the accelerometer fetch
    that wraps puts it back on the first. *)
Lemma C2_counterexample :
  map gps_of (read_outcomes (host (Some acc_one) (Some gps_three)) 3) =
    [Some (mkGps (B := decimal) (105%Z, 1) (2025%Z, 2));
     Some (mkGps (B := decimal) (105%Z, 1) (2025%Z, 2));
     Some (mkGps (B := decimal) (105%Z, 1) (2025%Z, 2))] /\
  map gps_of (read_outcomes (host (Some acc_three) (Some gps_three)) 3) =
    [Some (mkGps (B := decimal) (105%Z, 1) (2025%Z, 2));
     Some (mkGps (B := decimal) (115%Z, 1) (2125%Z, 2));
     Some (mkGps (B := decimal) (125%Z, 1) (2225%Z, 2))] /\
  reader Gps (state_after (host (Some acc_one) (Some gps_three)) 1) =
    Some [["11.5"; "21.25"]; ["12.5"; "22.25"]] /\
  reader Gps
    (snd (next_row (B := decimal) (host (Some acc_one) (Some gps_three)) 1 Acc
            (state_after (host (Some acc_one) (Some gps_three)) 1))) =
    Some [["10.5"; "20.25"]; ["11.5"; "21.25"]; ["12.5"; "22.25"]].
Proof. repeat split; reflexivity. Qed.

(** C2, an instance: after one [read] on a one-sample accelerometer source
    the accelerometer reader is at the end of its file; the next fetch
    restarts and finds the GPS reader back on its first sample. *)
Lemma C2_restart_is_shared_witness :
  reader Acc (state_after (host (Some acc_one) (Some gps_three)) 1) = Some [] /\
  next_row (B := decimal) (host (Some acc_one) (Some gps_three)) 1 Acc
    (state_after (host (Some acc_one) (Some gps_three)) 1) =
    (Ret ["1"; "2"; "3"],
     set_reader Acc (Some [])
       (opened (state_after (host (Some acc_one) (Some gps_three)) 1)
          acc_one gps_three)) /\
  reader (other Acc)
    (set_reader Acc (Some [])
       (opened (state_after (host (Some acc_one) (Some gps_three)) 1)
          acc_one gps_three)) =
    Some (tl gps_three).
Proof.
  split; [reflexivity|].
  exact (C2_restart_is_shared (B := decimal)
           (host (Some acc_one) (Some gps_three)) 0 Acc
           (state_after (host (Some acc_one) (Some gps_three)) 1)
           [] acc_one gps_three eq_refl eq_refl eq_refl).
Defined.

(** C3, counterexample.  Three accelerometer samples behind a header (no
    row mistaken for a header) against a GPS source of one sample: in the
    fetches that five calls of [read] make, the accelerometer fetches
    answer the samples 1, 4, 1, 1, 1 and not 1, 4, 7, 1, 4; the third
    sample is never delivered, each GPS fetch from the second on having
    restarted both sources. *)
Lemma C3_counterexample :
  no_row_mistaken (B := decimal) (expected_cols Acc) acc_three /\
  data_rows (B := decimal) (expected_cols Acc) acc_three =
    [["1"; "2"; "3"]; ["4"; "5"; "6"]; ["7"; "8"; "9"]] /\
  results_on Acc (read_pattern 5)
    (run_fetches (B := decimal) (host (Some acc_three) (Some gps_one)) 1
       (read_pattern 5) (started (host (Some acc_three) (Some gps_one)))) =
    map Ret [["1"; "2"; "3"]; ["4"; "5"; "6"]; ["1"; "2"; "3"];
             ["1"; "2"; "3"]; ["1"; "2"; "3"]] /\
  results_on Acc (read_pattern 5)
    (run_fetches (B := decimal) (host (Some acc_three) (Some gps_one)) 1
       (read_pattern 5) (started (host (Some acc_three) (Some gps_one)))) <>
    map Ret (cyclic (data_rows (B := decimal) (expected_cols Acc) acc_three) 5).
Proof.
  split; [left; reflexivity|]. split; [reflexivity|]. split; [reflexivity|].
  discriminate.
Qed.

(** C3, an instance: three samples behind a header, with blank rows in
    between; seven fetches go round them, the fourth answers the first, and
    so do the five accelerometer fetches interleaved with three GPS
    fetches that find data. *)
Lemma C3_fetches_cycle_witness :
  exists s1,
    startReading (B := decimal) (host (Some acc_three_spaced) (Some gps_three)) fresh =
      (Ret tt, s1) /\
    run_fetches (B := decimal) (host (Some acc_three_spaced) (Some gps_three)) 1
      (repeat Acc 7) s1 =
      map Ret [["1"; "2"; "3"]; ["4"; "5"; "6"]; ["7"; "8"; "9"];
               ["1"; "2"; "3"]; ["4"; "5"; "6"]; ["7"; "8"; "9"];
               ["1"; "2"; "3"]] /\
    nth 3 (run_fetches (B := decimal) (host (Some acc_three_spaced) (Some gps_three)) 1
             (repeat Acc 4) s1) (Raise RecursionError) =
      Ret ["1"; "2"; "3"] /\
    results_on Acc (read_pattern 3 ++ [Acc; Acc])
      (run_fetches (B := decimal) (host (Some acc_three_spaced) (Some gps_three)) 1
         (read_pattern 3 ++ [Acc; Acc]) s1) =
      map Ret [["1"; "2"; "3"]; ["4"; "5"; "6"]; ["7"; "8"; "9"];
               ["1"; "2"; "3"]; ["4"; "5"; "6"]].
Proof.
  destruct (C3_fetches_cycle (B := decimal)
              (host (Some acc_three_spaced) (Some gps_three)) Acc fresh
              acc_three_spaced gps_three 0 7 eq_refl eq_refl)
    as (s1 & Hs & Hrun & Hnth & Hcs).
  - left. reflexivity.
  - vm_compute. lia.
  - exists s1. split; [exact Hs|]. split; [exact Hrun|]. split; [exact Hnth|].
    vm_compute in Hs. injection Hs as <-.
    apply (Hcs (read_pattern 3 ++ [Acc; Acc])). reflexivity.
Defined.

(** C4, counterexample.  The accelerometer file exists and the GPS file
    does not: [startReading] fails, and the object still holds the open
    accelerometer file. *)
Lemma C4_counterexample :
  exists s',
    startReading (B := decimal) (host (Some acc_three) None) fresh =
      (Raise OSError, s') /\
    acc_file s' = Some (mkFile "acc.csv" acc_three) /\
    descriptors s' = 1.
Proof. eexists. repeat split; reflexivity. Qed.

(** C4, an instance: the accelerometer file exists, the GPS file does not. *)
Lemma C4_failed_start_witness :
  exists e s',
    startReading (B := decimal) (host (Some acc_three) None) fresh = (Raise e, s') /\
    SourceUnavailable e /\
    acc_reader s' = None /\ gps_reader s' = None /\ gps_file s' = None /\
    (host (Some acc_three) None (acc_filename fresh) = None ->
     acc_file s' = None /\ descriptors s' = 0) /\
    (forall a, host (Some acc_three) None (acc_filename fresh) = Some a ->
               acc_file s' = Some (mkFile (acc_filename fresh) a) /\
               descriptors s' = 1) /\
    exists s'', stopReading s' = (Ret tt, s'') /\
                acc_file s'' = None /\ gps_file s'' = None /\
                descriptors s'' = 0.
Proof.
  apply (C4_failed_start (B := decimal) (host (Some acc_three) None) fresh).
  - right. reflexivity.
  - reflexivity.
Defined.



(** C6, counterexample.  On an accelerometer source of three blank rows the
    fetch after opening detects nothing: whatever number of nested calls
    the recursion limit leaves room for, the fetch re-opens and recurses
    through all of them, each time from the same state, and ends with the
    interpreter's [RecursionError]. *)
Lemma C6_counterexample :
  forallb is_blank acc_only_blank = true /\
  (forall depth,
     fst (next_row (B := decimal) (host (Some acc_only_blank) (Some gps_two)) depth Acc
            (started (host (Some acc_only_blank) (Some gps_two)))) =
     Raise RecursionError) /\
  (forall depth,
     next_row (B := decimal) (host (Some acc_only_blank) (Some gps_two)) (S depth) Acc
       (started (host (Some acc_only_blank) (Some gps_two))) =
     next_row (B := decimal) (host (Some acc_only_blank) (Some gps_two)) depth Acc
       (started (host (Some acc_only_blank) (Some gps_two)))).
Proof.
  split; [reflexivity|]. split; intros depth.
  - destruct (no_data_hits_limit (B := decimal)
                (host (Some acc_only_blank) (Some gps_two)) Acc
                acc_only_blank gps_two eq_refl depth
                (started (host (Some acc_only_blank) (Some gps_two)))
                (tl acc_only_blank) eq_refl eq_refl eq_refl eq_refl) as [s' H].
    rewrite H. reflexivity.
  - apply (restart_eq (B := decimal) (host (Some acc_only_blank) (Some gps_two))
             depth Acc (started (host (Some acc_only_blank) (Some gps_two)))
             (tl acc_only_blank) acc_only_blank gps_two);
      reflexivity.
Qed.

(** C6, an instance: an accelerometer source of three blank rows. *)
Lemma C6_only_blank_rows_never_returns_witness :
  exists s1,
    startReading (B := decimal) (host (Some acc_only_blank) (Some gps_two)) fresh =
      (Ret tt, s1) /\
    (forall depth, exists s',
       next_row (B := decimal) (host (Some acc_only_blank) (Some gps_two)) depth Acc s1 =
         (Raise RecursionError, s')) /\
    (forall depth,
       next_row (B := decimal) (host (Some acc_only_blank) (Some gps_two))
         (S depth) Acc s1 =
       next_row (B := decimal) (host (Some acc_only_blank) (Some gps_two))
         depth Acc s1).
Proof.
  exact (C6_only_blank_rows_never_returns (B := decimal)
           (host (Some acc_only_blank) (Some gps_two)) Acc fresh
           acc_only_blank gps_two eq_refl eq_refl eq_refl).
Defined.

(** C7, an instance: three blank rows inserted among three samples. *)
Lemma C7_blank_rows_invisible_witness :
  exists s1 s1',
    startReading (B := decimal) (host (Some acc_three) (Some gps_two)) fresh =
      (Ret tt, s1) /\
    startReading (B := decimal) (host (Some acc_three_spaced) (Some gps_two)) fresh =
      (Ret tt, s1') /\
    run_fetches (B := decimal) (host (Some acc_three) (Some gps_two)) 1
      [Acc; Acc; Gps; Acc; Acc; Gps; Gps] s1 =
    run_fetches (B := decimal) (host (Some acc_three_spaced) (Some gps_two)) 1
      [Acc; Acc; Gps; Acc; Acc; Gps; Gps] s1' /\
    forall r,
      In (Ret r)
         (run_fetches (B := decimal) (host (Some acc_three_spaced) (Some gps_two)) 1
            [Acc; Acc; Gps; Acc; Acc; Gps; Gps] s1') ->
      is_blank r = false.
Proof.
  apply (C7_blank_rows_invisible (B := decimal)
           (host (Some acc_three) (Some gps_two))
           (host (Some acc_three_spaced) (Some gps_two))
           fresh acc_three acc_three_spaced gps_two gps_two 1
           [Acc; Acc; Gps; Acc; Acc; Gps; Gps]
           eq_refl eq_refl eq_refl eq_refl).
  - split; [reflexivity|].
    apply blank_ins_keep.
    apply blank_ins_blank; [reflexivity|].
    apply blank_ins_blank; [reflexivity|].
    apply blank_ins_keep.
    apply blank_ins_blank; [reflexivity|].
    apply blank_ins_keep. apply blank_ins_nil.
  - split; [reflexivity|].
    do 2 apply blank_ins_keep. apply blank_ins_nil.
Defined.

(** C9, an instance: two empty files. *)
Lemma C9_empty_files_open_witness :
  startReading (B := decimal) (host (Some []) (Some [])) fresh =
    (Ret tt, opened fresh [] []) /\
  (acc_reader fresh = None \/ gps_reader fresh = None ->
   ensure_open (B := decimal) (host (Some []) (Some [])) fresh =
     (Ret tt, opened fresh [] [])) /\
  acc_reader (opened fresh [] []) = Some [] /\
  gps_reader (opened fresh [] []) = Some [] /\
  acc_file (opened fresh [] []) <> None /\
  gps_file (opened fresh [] []) <> None /\
  forall depth, exists s',
    read (B := decimal) (host (Some []) (Some [])) depth (opened fresh [] []) =
      (Raise RecursionError, s').
Proof.
  exact (C9_empty_files_open (B := decimal) (host (Some []) (Some [])) fresh
           eq_refl eq_refl).
Defined.



(** * Further properties on concrete sources *)

(** An instance of [open_consumes_first_row]: a file that starts with
    data. *)
Lemma open_consumes_first_row_witness :
  exists s1,
    startReading (B := decimal) (host (Some acc_numeric_first) (Some gps_two)) fresh =
      (Ret tt, s1) /\
    acc_reader s1 = Some [["4"; "5"; "6"]] /\
    gps_reader s1 = Some [["10.5"; "20.25"]; ["11.5"; "21.25"]] /\
    acc_file s1 = Some (mkFile "acc.csv" acc_numeric_first) /\
    gps_file s1 = Some (mkFile "gps.csv" gps_two).
Proof.
  exact (open_consumes_first_row (B := decimal)
           (host (Some acc_numeric_first) (Some gps_two)) fresh
           acc_numeric_first gps_two eq_refl eq_refl).
Defined.

(** An instance of [read_starts_lazily]: the first [read] on a new object. *)
Lemma read_starts_lazily_witness :
  read (B := decimal) (host (Some acc_three) (Some gps_three)) 1 fresh =
  (startReading (B := decimal) (host (Some acc_three) (Some gps_three)) ;;
   read (B := decimal) (host (Some acc_three) (Some gps_three)) 1) fresh.
Proof.
  apply (read_starts_lazily (B := decimal)
           (host (Some acc_three) (Some gps_three)) 1 fresh).
  left. reflexivity.
Defined.

(** An instance of [read_well_formed]: the first reading of two good
    sources. *)
Lemma read_well_formed_witness :
  read (B := decimal) (host (Some acc_three) (Some gps_three)) 1 fresh =
  (Ret (reading 1 2 3 (105%Z, 1) (2025%Z, 2)),
   state_after (host (Some acc_three) (Some gps_three)) 1).
Proof.
  assert (H0 : ensure_open (B := decimal)
                 (host (Some acc_three) (Some gps_three)) fresh =
               (Ret tt, started (host (Some acc_three) (Some gps_three))))
    by (vm_compute; reflexivity).
  assert (H1 : next_row (B := decimal)
                 (host (Some acc_three) (Some gps_three)) 1 Acc
                 (started (host (Some acc_three) (Some gps_three))) =
               (Ret ["1"; "2"; "3"],
                set_reader Acc (Some [["4"; "5"; "6"]; ["7"; "8"; "9"]])
                  (started (host (Some acc_three) (Some gps_three)))))
    by (vm_compute; reflexivity).
  assert (H2 : next_row (B := decimal)
                 (host (Some acc_three) (Some gps_three)) 1 Gps
                 (set_reader Acc (Some [["4"; "5"; "6"]; ["7"; "8"; "9"]])
                    (started (host (Some acc_three) (Some gps_three)))) =
               (Ret ["10.5"; "20.25"],
                state_after (host (Some acc_three) (Some gps_three)) 1))
    by (vm_compute; reflexivity).
  exact (read_well_formed (B := decimal) _ _ _ _ _ _ _ _
           "1" "2" "3" "10.5" "20.25" 1%Z 2%Z 3%Z (105%Z, 1) (2025%Z, 2)
           H0 H1 H2 eq_refl eq_refl eq_refl eq_refl eq_refl eq_refl
           eq_refl eq_refl eq_refl eq_refl).
Defined.

(** An instance of [read_terminates]: a [read] on an object that was
    stopped after two reads. *)
Lemma read_terminates_witness :
  returns_or_malformed
    (fst (read (B := decimal) (host (Some acc_bad_then_good) (Some gps_one)) 1
            (closed (state_after (host (Some acc_bad_then_good) (Some gps_one)) 2)))).
Proof.
  apply (read_terminates (B := decimal)
           (host (Some acc_bad_then_good) (Some gps_one)) 0
           (closed (state_after (host (Some acc_bad_then_good) (Some gps_one)) 2))
           acc_bad_then_good gps_one).
  - vm_compute. reflexivity.
  - vm_compute. reflexivity.
  - discriminate.
  - discriminate.
Defined.

(** An instance of [reads_in_lockstep]: two accelerometer samples against
    three GPS samples, read at the moments 10, 20, 30, 40 and 50; the third
    GPS sample is never delivered. *)
Lemma reads_in_lockstep_witness :
  exists s1,
    startReading (B := decimal)
      (host (Some [acc_header; ["1"; "2"; "3"]; ["4"; "5"; "6"]]) (Some gps_three))
      fresh = (Ret tt, s1) /\
    run_reads_at (B := decimal)
      (host (Some [acc_header; ["1"; "2"; "3"]; ["4"; "5"; "6"]]) (Some gps_three))
      1 [10; 20; 30; 40; 50]%Z s1 =
    [Ret (mkAggregated (mkAccelerometer 1 2 3)
            (mkGps (B := decimal) (105%Z, 1) (2025%Z, 2)) 10);
     Ret (mkAggregated (mkAccelerometer 4 5 6)
            (mkGps (B := decimal) (115%Z, 1) (2125%Z, 2)) 20);
     Ret (mkAggregated (mkAccelerometer 1 2 3)
            (mkGps (B := decimal) (105%Z, 1) (2025%Z, 2)) 30);
     Ret (mkAggregated (mkAccelerometer 4 5 6)
            (mkGps (B := decimal) (115%Z, 1) (2125%Z, 2)) 40);
     Ret (mkAggregated (mkAccelerometer 1 2 3)
            (mkGps (B := decimal) (105%Z, 1) (2025%Z, 2)) 50)].
Proof.
  destruct (reads_in_lockstep (B := decimal)
              (host (Some [acc_header; ["1"; "2"; "3"]; ["4"; "5"; "6"]])
                 (Some gps_three))
              fresh [acc_header; ["1"; "2"; "3"]; ["4"; "5"; "6"]] gps_three 0
              [10; 20; 30; 40; 50]%Z eq_refl eq_refl)
    as (s1 & Hs & Hrun).
  - vm_compute. lia.
  - vm_compute. lia.
  - exists s1. split; [exact Hs|].
    vm_compute in Hs. injection Hs as <-. rewrite Hrun. reflexivity.
Defined.

(** An instance of [no_descriptor_leak]: a read, a failed start on a host
    without the GPS file, a read that opens again, a stop. *)
Lemma no_descriptor_leak_witness :
  descriptors
    (after_calls (B := decimal) 1
       [(host (Some acc_one) (Some gps_three), CallRead);
        (host (Some acc_one) None, CallStart);
        (host (Some acc_one) (Some gps_three), CallRead);
        (host (Some acc_one) (Some gps_three), CallStop)]
       (init "acc.csv" "gps.csv" 0)) =
  held
    (after_calls (B := decimal) 1
       [(host (Some acc_one) (Some gps_three), CallRead);
        (host (Some acc_one) None, CallStart);
        (host (Some acc_one) (Some gps_three), CallRead);
        (host (Some acc_one) (Some gps_three), CallStop)]
       (init "acc.csv" "gps.csv" 0)) /\
  descriptors
    (after_calls (B := decimal) 1
       [(host (Some acc_one) (Some gps_three), CallRead);
        (host (Some acc_one) None, CallStart);
        (host (Some acc_one) (Some gps_three), CallRead);
        (host (Some acc_one) (Some gps_three), CallStop)]
       (init "acc.csv" "gps.csv" 0)) <= 2 /\
  acc_filename
    (after_calls (B := decimal) 1
       [(host (Some acc_one) (Some gps_three), CallRead);
        (host (Some acc_one) None, CallStart);
        (host (Some acc_one) (Some gps_three), CallRead);
        (host (Some acc_one) (Some gps_three), CallStop)]
       (init "acc.csv" "gps.csv" 0)) = "acc.csv" /\
  gps_filename
    (after_calls (B := decimal) 1
       [(host (Some acc_one) (Some gps_three), CallRead);
        (host (Some acc_one) None, CallStart);
        (host (Some acc_one) (Some gps_three), CallRead);
        (host (Some acc_one) (Some gps_three), CallStop)]
       (init "acc.csv" "gps.csv" 0)) = "gps.csv".
Proof.
  apply (no_descriptor_leak (B := decimal) "acc.csv" "gps.csv" 0 1).
  vm_compute. reflexivity.
Defined.

(** Rows of Unicode whitespace are blank: the fetches skip rows of
    no-break, em and ideographic spaces as they skip rows of spaces. *)
Lemma unicode_blank_rows_are_skipped :
  is_blank [nbsp; nbsp; nbsp] = true /\
  is_blank [em_space; " "; ideographic_space] = true /\
  run_fetches (B := decimal) (host (Some acc_unicode_spaced) (Some gps_two)) 1
    [Acc; Acc; Acc] (started (host (Some acc_unicode_spaced) (Some gps_two))) =
  [Ret ["1"; "2"; "3"]; Ret ["4"; "5"; "6"]; Ret ["1"; "2"; "3"]].
Proof. repeat split; reflexivity. Qed.

(** Instances of [POSTGRES_PORT_settled], on the decimal built-ins: a port
    that is read, and the default for a port of 0, for a word, for an empty
    and for an unset variable. *)
Lemma POSTGRES_PORT_settled_witness :
  POSTGRES_PORT (B := decimal) (env_port (Some "6543")) = 6543%Z /\
  POSTGRES_PORT (B := decimal) (env_port (Some "0")) = 5432%Z /\
  POSTGRES_PORT (B := decimal) (env_port (Some "port")) = 5432%Z /\
  POSTGRES_PORT (B := decimal) (env_port (Some "")) = 5432%Z /\
  POSTGRES_PORT (B := decimal) (env_port None) = 5432%Z.
Proof.
  split.
  { apply (proj1 (proj2 (POSTGRES_PORT_settled (B := decimal) (env_port (Some "6543"))))
             "6543" 6543%Z); [reflexivity|discriminate|reflexivity|discriminate]. }
  split.
  { apply (proj1 (proj2 (proj2 (POSTGRES_PORT_settled (B := decimal)
                                   (env_port (Some "0"))))) "0");
      [reflexivity|discriminate|right; reflexivity]. }
  split.
  { apply (proj1 (proj2 (proj2 (POSTGRES_PORT_settled (B := decimal)
                                   (env_port (Some "port"))))) "port");
      [reflexivity|discriminate|left; reflexivity]. }
  split.
  { apply (proj2 (proj2 (proj2 (POSTGRES_PORT_settled (B := decimal)
                                   (env_port (Some ""))))));
      [reflexivity|right; reflexivity]. }
  apply (proj2 (proj2 (proj2 (POSTGRES_PORT_settled (B := decimal) (env_port None)))));
    [reflexivity|left; reflexivity].
Defined.
